(** * Pompeu: the conversation simulator and the judge

    A shallow embedding of the simulator script (the buyer/store
    conversation loop), of [judger.ts] (the rubric judge with its retry) and
    of the shared types of [index.ts], followed by the properties of the
    pipeline.

    A string is the UTF-8 encoding of the JavaScript string (a list of
    bytes), [Date.now()] values are integers, JSON numbers are rationals
    (every finite double is one).  The model provider, the
    clock, the identifier generator and [JSON.stringify] are the outside
    world: they are parameters of the development. *)

From stdpp Require Import gmap strings list fin_maps pretty.
From Stdlib Require Import Ascii ZArith QArith.
From Equations Require Import Equations.

Local Close Scope Q_scope.
Local Open Scope string_scope.
Local Open Scope list_scope.
Local Open Scope stdpp_scope.
Set Warnings "-register-all".

(** ** JSON values and JavaScript objects *)

Inductive Json : Type :=
| JNull
| JBool (b : bool)
| JNumber (q : Q)
| JString (s : string)
| JArray (items : list Json)
| JObject (props : list (string * Json)).

(** An object is its list of properties in insertion order. *)
Abbreviation Props := (list (string * Json)).

Fixpoint obj_get (k : string) (o : Props) : option Json :=
  match o with
  | [] => None
  | (k', v) :: o' => if String.eqb k k' then Some v else obj_get k o'
  end.

(** [o[k] = v]: an existing property keeps its place, a new one goes last. *)
Fixpoint obj_set (k : string) (v : Json) (o : Props) : Props :=
  match o with
  | [] => [(k, v)]
  | (k', v') :: o' =>
      if String.eqb k k' then (k', v) :: o' else (k', v') :: obj_set k v o'
  end.

(** [{ ...base, ...extra }]: the properties of [extra] are assigned in order. *)
Definition obj_spread (base extra : Props) : Props :=
  fold_left (fun o kv => obj_set (fst kv) (snd kv) o) extra base.

Definition obj_keys (o : Props) : list string := map fst o.

(** ** The schema combinators of zod used by [judgerSchema]

    [z.string()] accepts every string, [z.number()] every number,
    [z.object(shape)] an object that has every key of the shape, and its
    result holds the shape's keys only, in the shape's order.  [describe]
    attaches documentation and validates nothing. *)

Inductive ZodSchema : Type :=
| ZString
| ZNumber
| ZDescribe (inner : ZodSchema) (description : string)
| ZObject (shape : list (string * ZodSchema)).

Fixpoint zod_parse (s : ZodSchema) (j : Json) : option Json :=
  match s with
  | ZString => match j with JString _ => Some j | _ => None end
  | ZNumber => match j with JNumber _ => Some j | _ => None end
  | ZDescribe inner _ => zod_parse inner j
  | ZObject shape =>
      match j with
      | JObject props =>
          JObject <$>
          (fix fields (sh : list (string * ZodSchema)) : option Props :=
             match sh with
             | [] => Some []
             | (k, sk) :: sh' =>
                 match obj_get k props with
                 | None => None
                 | Some v =>
                     match zod_parse sk v with
                     | None => None
                     | Some v' => cons (k, v') <$> fields sh'
                     end
                 end
             end) shape
      | _ => None
      end
  end.

(** ** index.ts *)

(** [text.split("\n").map(line => line.trim()).join("\n")].

    [trim] strips the white space and the line terminators of ECMAScript
    at both ends: U+0009 to U+000D, U+0020, U+00A0, U+FEFF, U+2028, U+2029
    and the other space separators (U+1680, U+2000 to U+200A, U+202F,
    U+205F, U+3000), here in their UTF-8 encodings.  An encoding of one of
    them is no part of the encoding of another character, so stripping the
    encodings at the ends of the bytes is stripping the characters. *)

Definition nl : string := String "010"%char EmptyString.
Definition dq : string := String "034"%char EmptyString.

Definition utf8 (bytes : list nat) : string :=
  String.string_of_list_ascii (List.map Ascii.ascii_of_nat bytes).

Definition js_white_space : list string :=
  [ utf8 [9]; utf8 [10]; utf8 [11]; utf8 [12]; utf8 [13]; utf8 [32];
    utf8 [194; 160];
    utf8 [225; 154; 128];
    utf8 [226; 128; 128]; utf8 [226; 128; 129]; utf8 [226; 128; 130];
    utf8 [226; 128; 131]; utf8 [226; 128; 132]; utf8 [226; 128; 133];
    utf8 [226; 128; 134]; utf8 [226; 128; 135]; utf8 [226; 128; 136];
    utf8 [226; 128; 137]; utf8 [226; 128; 138];
    utf8 [226; 128; 168]; utf8 [226; 128; 169];
    utf8 [226; 128; 175];
    utf8 [226; 129; 159];
    utf8 [227; 128; 128];
    utf8 [239; 187; 191] ].

Fixpoint split_nl_go (cur : string) (s : string) : list string :=
  match s with
  | EmptyString => [String.rev cur]
  | String c s' =>
      if Ascii.eqb c "010"%char then String.rev cur :: split_nl_go EmptyString s'
      else split_nl_go (String c cur) s'
  end.

Definition split_nl : string -> list string := split_nl_go EmptyString.

(** The number of bytes of the pattern that [s] starts with, 0 when it
    starts with none. *)
Definition leading_width (patterns : list string) (s : string) : nat :=
  match List.find (fun p => String.prefix p s) patterns with
  | Some p => String.length p
  | None => 0
  end.

(** [s] without the patterns it starts with, one after the other; [skip]
    counts the bytes still to drop of the pattern found last. *)
Fixpoint strip_leading (patterns : list string) (skip : nat) (s : string)
    : string :=
  match s with
  | EmptyString => EmptyString
  | String _ s' =>
      match skip with
      | S k => strip_leading patterns k s'
      | O =>
          match leading_width patterns s with
          | O => s
          | S k => strip_leading patterns k s'
          end
      end
  end.

Definition trim_start (s : string) : string :=
  strip_leading js_white_space 0 s.

Definition trim_end (s : string) : string :=
  String.rev
    (strip_leading (List.map String.rev js_white_space) 0 (String.rev s)).

Definition trim (s : string) : string := trim_end (trim_start s).

Definition join_nl (lines : list string) : string := String.concat nl lines.

Definition dedent (text : string) : string :=
  join_nl (map trim (split_nl text)).

Inductive Sender : Type := buyer | store.

Definition Sender_eqb (a b : Sender) : bool :=
  match a, b with
  | buyer, buyer | store, store => true
  | _, _ => false
  end.

Record ConversationMesage : Type := {
  from : Sender;
  message : string;
}.

(** ** The messages handed to the model *)

Inductive Role : Type := system | assistant | user.

Record ModelMessage : Type := {
  role : Role;
  content : string;
}.

(** ** judger.ts: the schema of a judgement (lines 61-94) *)

Definition metricSchema (scoreDescription : string) : ZodSchema :=
  ZObject
    [ ("reasoning", ZDescribe ZString "The reasoning of the score.");
      ("score", ZDescribe ZNumber scoreDescription) ].

Definition judgerSchema : ZodSchema :=
  ZObject
    [ ("quality", metricSchema
         "The score of the quality of the conversation. 0 is the worst and 10 is the best.");
      ("correctness", metricSchema
         "The score of the correctness of the conversation. 0 is the worst and 10 is the best.");
      ("grammar", metricSchema
         "The score of the grammar of the conversation. 0 is the worst and 10 is the best.");
      ("completeness", metricSchema
         "The score of the completeness of the conversation. 0 is the worst and 10 is the best.") ].

(** The two scales the judge is told about: the rubric's prose asks for
    scores between 0.00 and 1.00, the schema's field descriptions say that 0
    is the worst and 10 the best. *)
Definition in_rubric_scale (q : Q) : Prop := (0 <= q)%Q /\ (q <= 1)%Q.
Definition in_schema_scale (q : Q) : Prop := (0 <= q)%Q /\ (q <= 10)%Q.

(** ** The simulator script: the prompt builders (lines 173-237) *)

Definition language : string := "catalan".

Definition MAX_CONVERSATION_LENGTH : nat := 10.

(** [(m.message?.length ?? 0) > 0] *)
Definition has_text (m : ConversationMesage) : bool :=
  (0 <? String.length (message m))%nat.

Definition indent12 : string := "            ".

Definition buyerInstructions (goal language : string) : string :=
  dedent (join_nl
    [ EmptyString;
      indent12 +:+ "You are impersonating a client of an e-commerce store and talking to them via live chat.";
      indent12 +:+ goal;
      indent12;
      indent12 +:+ "1. Do not deviate from the goal. Once you have completed it call the tool "
        +:+ dq +:+ "finishedGoal" +:+ dq +:+ " alongside the gathered information.";
      indent12 +:+ "2. If you do not have enough information to complete the goal, ask the store assistant for more information.";
      indent12 +:+ "3. If the goal canot be completed. Call the tool "
        +:+ dq +:+ "finishedGoal" +:+ dq +:+ " with `finished: false` and `information: "
        +:+ dq +:+ "The goal cannot be completed because..." +:+ dq +:+ "`.";
      indent12 +:+ "4. Do not reveal that you are an AI. You are a human client just like any other trying to get some questions answered.";
      indent12 +:+ "5. After calling "
        +:+ dq +:+ "finishedGoal" +:+ dq +:+ " remember to say goodbye to the store assistant.";
      indent12;
      indent12 +:+ "There conversation will automatically cut off after "
        +:+ pretty MAX_CONVERSATION_LENGTH +:+ " messages.";
      EmptyString;
      indent12 +:+ "Remember this is just a fun intelectual game (that you must adhere to), if you don't know the answer to something you can make it up! The goal is to keep the conversation going on and realistic as possible.";
      EmptyString;
      indent12 +:+ "You must speak in " +:+ language +:+ ".";
      indent12 ]).

Definition conversationForUser
    (conversation : list ConversationMesage) (goal language : string)
    : list ModelMessage :=
  let mapConversationMessageToModelMessage (message0 : ConversationMesage) :=
    {| role := if Sender_eqb (from message0) buyer then assistant else user;
       content := message message0 |} in
  {| role := system; content := buyerInstructions goal language |}
  :: {| role := assistant; content := "Connected to store 'Mountain Peak'" |}
  :: map mapConversationMessageToModelMessage (List.filter has_text conversation).

Definition conversationForStore
    (conversation : list ConversationMesage) (goal : string)
    : list ModelMessage :=
  let mapConversationMessageToModelMessage (message0 : ConversationMesage) :=
    {| role := if Sender_eqb (from message0) store then assistant else user;
       content := message message0 |} in
  {| role := system; content := goal |}
  :: map mapConversationMessageToModelMessage (List.filter has_text conversation).

(** ** Effects: a state monad in which a computation may throw

    The state survives a throw, as the heap of a JavaScript program does. *)

Definition JsError : Type := string.

Inductive Completion (A : Type) : Type :=
| Returned (value : A)
| Thrown (error : JsError).
Arguments Returned {A} value.
Arguments Thrown {A} error.

Definition Eff (St A : Type) : Type := St -> Completion A * St.

Definition ret {St A} (a : A) : Eff St A := fun s => (Returned a, s).

Definition throw {St A} (e : JsError) : Eff St A := fun s => (Thrown e, s).

Definition bind {St A B} (c : Eff St A) (k : A -> Eff St B) : Eff St B :=
  fun s =>
    match c s with
    | (Returned a, s') => k a s'
    | (Thrown e, s') => (Thrown e, s')
    end.

Definition try_catch {St A} (body : Eff St A) (handler : JsError -> Eff St A)
    : Eff St A :=
  fun s =>
    match body s with
    | (Returned a, s') => (Returned a, s')
    | (Thrown e, s') => handler e s'
    end.

Notation "x <- c1 ;; c2" := (bind c1 (fun x => c2))
  (at level 100, c1 at next level, right associativity).
Notation "c1 ;; c2" := (bind c1 (fun _ => c2))
  (at level 100, right associativity).

(** [for (let i = start; i < start + remaining; i++) body], where the body
    may [break]. *)
Inductive LoopSignal : Type := Continue | Break.

Fixpoint for_loop {St} (remaining i : nat) (body : nat -> Eff St LoopSignal)
    : Eff St unit :=
  match remaining with
  | O => ret tt
  | S remaining' =>
      signal <- body i ;;
      match signal with
      | Break => ret tt
      | Continue => for_loop remaining' (S i) body
      end
  end.

Section Pipeline.

(** The handle of a model ([LanguageModel] of the SDK), how [JSON.stringify]
    renders one, [JSON.stringify(value, null, space)] itself (space 0 when
    the call gives none), the store persona's document (simulator script,
    lines 59-162) and the rubric (judger.ts, lines 7-59). *)
Variable LanguageModel : Type.
Variable model_toJSON : LanguageModel -> Json.
Variable JSON_stringify : Json -> nat -> string.
Variable storeGoal : string.
Variable judgingPrompt : string.
(** [export const judger = anthropicClaude45Sonnet] *)
Variable judger : LanguageModel.

(** *** What a model call is given and what it gives back *)

Record StaticToolResult : Type := {
  toolName : string;
  finished : bool;
  information : string;
}.

Record GenerateTextResult : Type := {
  text : string;
  staticToolResults : list StaticToolResult;
}.

Record TextRequest : Type := {
  text_model : LanguageModel;
  text_messages : list ModelMessage;
  text_tools : list string;
}.

Record ObjectRequest : Type := {
  object_schema : ZodSchema;
  object_model : LanguageModel;
  object_messages : list ModelMessage;
}.

Inductive ModelCall : Type :=
| TextCall (request : TextRequest)
| ObjectCall (request : ObjectRequest).

(** The outside world answers by the number of questions asked before. *)
Record Env : Type := {
  nanoid_at : nat -> string;
  Date_now_at : nat -> Z;
  model_text_at : nat -> TextRequest -> Completion GenerateTextResult;
  model_object_at : nat -> ObjectRequest -> Completion Json;
}.

Inductive ConsoleEntry : Type :=
| Info (line : string)
| Log (line : string)
| Error (line : string)
| LogDiagnostics (conversation : list ConversationMesage)
    (forUser forStore : list ModelMessage).

Record World : Type := {
  ticks : nat;
  files : gmap string string;
  console : list ConsoleEntry;
  calls : list ModelCall;
}.

Definition ask : Eff World nat :=
  fun w =>
    (Returned (ticks w),
     {| ticks := S (ticks w); files := files w; console := console w;
        calls := calls w |}).

Definition print (entry : ConsoleEntry) : Eff World unit :=
  fun w =>
    (Returned tt,
     {| ticks := ticks w; files := files w; console := console w ++ [entry];
        calls := calls w |}).

Definition record_call (call : ModelCall) : Eff World unit :=
  fun w =>
    (Returned tt,
     {| ticks := ticks w; files := files w; console := console w;
        calls := calls w ++ [call] |}).

Definition Bun_write (path data : string) : Eff World unit :=
  fun w =>
    (Returned tt,
     {| ticks := ticks w; files := <[path := data]> (files w);
        console := console w; calls := calls w |}).

Definition of_completion {St A} (c : Completion A) : Eff St A :=
  match c with
  | Returned a => ret a
  | Thrown e => throw e
  end.

Section Run.

Variable env : Env.

Definition nanoid : Eff World string :=
  t <- ask ;; ret (nanoid_at env t).

Definition Date_now : Eff World Z :=
  t <- ask ;; ret (Date_now_at env t).

Definition generateText (request : TextRequest) : Eff World GenerateTextResult :=
  t <- ask ;;
  record_call (TextCall request) ;;
  of_completion (model_text_at env t request).

(** [generateObject] validates what the model produced against the schema
    and throws when it does not conform. *)
Definition generateObject (request : ObjectRequest) : Eff World Json :=
  t <- ask ;;
  record_call (ObjectCall request) ;;
  raw <- of_completion (model_object_at env t request) ;;
  match zod_parse (object_schema request) raw with
  | Some object => ret object
  | None => throw "No object generated: response did not match schema."
  end.

(** *** The simulator script: [runCase] (lines 239-329) *)

(** The state of one run: the world and the local array [conversation]. *)
Record RunState : Type := {
  run_world : World;
  run_conversation : list ConversationMesage;
}.

Definition in_world {A} (c : Eff World A) : Eff RunState A :=
  fun st =>
    let (r, w) := c (run_world st) in
    (r, {| run_world := w; run_conversation := run_conversation st |}).

Definition read_conversation : Eff RunState (list ConversationMesage) :=
  fun st => (Returned (run_conversation st), st).

(** [conversation.push(m)] *)
Definition conversation_push (m : ConversationMesage) : Eff RunState unit :=
  fun st =>
    (Returned tt,
     {| run_world := run_world st;
        run_conversation := run_conversation st ++ [m] |}).

Definition bool_text (b : bool) : string := if b then "true" else "false".

(** The [execute] of the tool [finishedGoal] runs inside the buyer's model
    call, once for each result the call reports for it. *)
Fixpoint run_execute (goalModel : string) (results : list StaticToolResult)
    : Eff World unit :=
  match results with
  | [] => ret tt
  | result :: results' =>
      (if String.eqb (toolName result) "finishedGoal"
       then print (Info (goalModel +:+ " - Finished goal: "
                         +:+ bool_text (finished result) +:+ " "
                         +:+ information result))
       else ret tt) ;;
      run_execute goalModel results'
  end.

Definition called_finishedGoal (results : list StaticToolResult) : bool :=
  existsb (fun result => String.eqb (toolName result) "finishedGoal") results.

(** The body of the loop (lines 250-302). *)
Definition turn (goal goalModel : string) (model : LanguageModel) (i : nat)
    : Eff RunState LoopSignal :=
  in_world (print (Info (goalModel +:+ " - Iteration " +:+ pretty i))) ;;
  conversation <- read_conversation ;;
  buyerResult <- in_world (
    r <- generateText
           {| text_model := model;
              text_messages := conversationForUser conversation goal language;
              text_tools := ["finishedGoal"] |} ;;
    run_execute goalModel (staticToolResults r) ;;
    ret r) ;;
  if called_finishedGoal (staticToolResults buyerResult) then
    in_world (print (Log "Finishing early")) ;;
    ret Break
  else
    let userMessage := text buyerResult in
    in_world (print (Info (goalModel +:+ " - User message: " +:+ userMessage))) ;;
    conversation_push {| from := buyer; message := userMessage |} ;;
    conversation <- read_conversation ;;
    storeResult <- in_world (
      generateText
        {| text_model := model;
           text_messages := conversationForStore conversation storeGoal;
           text_tools := [] |}) ;;
    let storeMessage := text storeResult in
    in_world (print (Info (goalModel +:+ " - Store message: " +:+ storeMessage))) ;;
    conversation_push {| from := store; message := storeMessage |} ;;
    ret Continue.

Definition conversation_toJSON (conversation : list ConversationMesage) : Json :=
  JArray
    (map (fun m =>
            JObject
              [ ("from", JString match from m with
                                 | buyer => "buyer"
                                 | store => "store"
                                 end);
                ("message", JString (message m)) ])
         conversation).

Definition number_of_Z (z : Z) : Json := JNumber (inject_Z z).

(** The document of lines 316-323. *)
Definition run_record (goal modelName : string) (model : LanguageModel)
    (conversation : list ConversationMesage) (startTime endTime : Z) : Json :=
  JObject
    [ ("goal", JString goal);
      ("modelName", JString modelName);
      ("model", model_toJSON model);
      ("conversation", conversation_toJSON conversation);
      ("startTime", number_of_Z startTime);
      ("endTime", number_of_Z endTime) ].

Definition results_path (id : string) : string :=
  "./results/" +:+ id +:+ ".json".

Record RunCaseResult : Type := {
  result_goal : string;
  result_model : LanguageModel;
  result_conversation : list ConversationMesage;
  result_startTime : Z;
  result_endTime : Z;
}.

Definition runCase_frame (goal modelName : string) (model : LanguageModel)
    : Eff RunState RunCaseResult :=
  id <- in_world nanoid ;;
  startTime <- in_world Date_now ;;
  let goalModel := modelName +:+ ":" +:+ goal in
  in_world (print (Info ("=== Running case " +:+ goalModel +:+ " ==="))) ;;
  try_catch
    (for_loop MAX_CONVERSATION_LENGTH 0 (turn goal goalModel model))
    (fun error =>
       in_world (print (Error (goalModel +:+ " - Error: " +:+ error))) ;;
       conversation <- read_conversation ;;
       in_world (print (LogDiagnostics conversation
                          (conversationForUser conversation goal language)
                          (conversationForStore conversation storeGoal)))) ;;
  endTime <- in_world Date_now ;;
  conversation <- read_conversation ;;
  in_world (Bun_write (results_path id)
              (JSON_stringify
                 (run_record goal modelName model conversation startTime endTime)
                 2)) ;;
  ret {| result_goal := goal; result_model := model;
         result_conversation := conversation;
         result_startTime := startTime; result_endTime := endTime |}.

(** [runCase] starts with [const conversation = []]. *)
Definition runCase (goal modelName : string) (model : LanguageModel)
    : Eff World RunCaseResult :=
  fun w =>
    let (r, st) :=
      runCase_frame goal modelName model
        {| run_world := w; run_conversation := [] |} in
    (r, run_world st).

(** *** judger.ts: [judge] (lines 96-146) *)

(** A run as [judgeAll] reads it back from [./results]; [model] is then the
    parsed rendering of the handle. *)
Record ExportedConversation : Type := {
  goal : string;
  modelName : string;
  model : Json;
  conversation : list ConversationMesage;
  startTime : Z;
  endTime : Z;
}.

Definition judgements_path (id : string) : string :=
  "./judgements/" +:+ id +:+ ".json".

(** The own properties that [...object] copies. *)
Definition own_props (object : Json) : Props :=
  match object with
  | JObject props => props
  | _ => []
  end.

(** The document of lines 129-137: [{ id, goal, modelName, startTime,
    endTime, conversation, ...object }]. *)
Definition judgement_record (id : string) (run : ExportedConversation)
    (object : Json) : Json :=
  JObject
    (obj_spread
       [ ("id", JString id);
         ("goal", JString (goal run));
         ("modelName", JString (modelName run));
         ("startTime", number_of_Z (startTime run));
         ("endTime", number_of_Z (endTime run));
         ("conversation", conversation_toJSON (conversation run)) ]
       (own_props object)).

Definition judge_request (run : ExportedConversation) : ObjectRequest :=
  {| object_schema := judgerSchema;
     object_model := judger;
     object_messages :=
       [ {| role := system; content := judgingPrompt |};
         {| role := user;
            content :=
              JSON_stringify
                (JObject [("conversation", conversation_toJSON (conversation run))])
                0 |} ] |}.

(** The [try] block. *)
Definition judge_attempt (id : string) (run : ExportedConversation)
    : Eff World unit :=
  print (Log ("Judging " +:+ id)) ;;
  object <- generateObject (judge_request run) ;;
  print (Log ("Judged " +:+ id)) ;;
  Bun_write (judgements_path id)
    (JSON_stringify (judgement_record id run object) 2).

Equations? judge (id : string) (run : ExportedConversation) (iteration : nat)
    (w : World) : Completion unit * World by wf (12 - iteration) lt :=
  judge id run iteration w with judge_attempt id run w => {
    | (Returned _, w') => (Returned tt, w');
    | (Thrown error, w') with gt_dec iteration 10 => {
        | left _ => (Thrown error, w');
        | right _ => judge id run (S iteration) w' } }.
Proof. lia. Qed.

(** *** judger.ts: [judgeAll] (lines 150-162), the runs it picks

    For each entry of [./results] in turn: skipped unless its name ends
    with [.json]; [id] is what stands before the first dot of the name;
    skipped when that is empty. *)

(** [s.split(separator)] for a separator of one character. *)
Fixpoint split_go (separator : ascii) (cur s : string) : list string :=
  match s with
  | EmptyString => [String.rev cur]
  | String c s' =>
      if Ascii.eqb c separator
      then String.rev cur :: split_go separator EmptyString s'
      else split_go separator (String c cur) s'
  end.

Definition split (s : string) (separator : ascii) : list string :=
  split_go separator EmptyString s.

Definition endsWith (s suffix : string) : bool :=
  String.prefix (String.rev suffix) (String.rev s).

Definition judged_id (file : string) : option string :=
  if endsWith file ".json" then
    match split file "."%char with
    | id :: _ => if String.eqb id EmptyString then None else Some id
    | [] => None
    end
  else None.

(** * Properties *)

(** ** The prompt builders *)

(** The part of a prompt that replays the conversation: what follows the
    system instruction and the connection notice on the buyer's side, and
    what follows the system instruction on the store's side. *)
Definition history_for_user (conversation : list ConversationMesage)
    (goal language : string) : list ModelMessage :=
  drop 2 (conversationForUser conversation goal language).

Definition history_for_store (conversation : list ConversationMesage)
    (goal : string) : list ModelMessage :=
  drop 1 (conversationForStore conversation goal).

Lemma has_text_spec m : has_text m = true <-> message m <> EmptyString.
Proof.
  unfold has_text. destruct (message m); simpl; split; try done.
Qed.

Lemma filter_has_text_app c1 c2 :
  List.filter has_text (c1 ++ c2)
  = List.filter has_text c1 ++ List.filter has_text c2.
Proof. apply List.filter_app. Qed.

Lemma filter_has_text_text conversation :
  Forall (fun m => message m <> EmptyString) (List.filter has_text conversation).
Proof.
  apply Forall_forall. intros m Hm.
  apply list_elem_of_In, List.filter_In in Hm as [_ Hm].
  by apply has_text_spec.
Qed.

Lemma history_for_user_text conversation goal lang :
  Forall (fun mm => content mm <> EmptyString)
    (history_for_user conversation goal lang).
Proof.
  unfold history_for_user, conversationForUser; simpl.
  apply Forall_fmap. eapply Forall_impl; [apply filter_has_text_text|done].
Qed.

Lemma history_for_store_text conversation goal :
  Forall (fun mm => content mm <> EmptyString)
    (history_for_store conversation goal).
Proof.
  unfold history_for_store, conversationForStore; simpl.
  apply Forall_fmap. eapply Forall_impl; [apply filter_has_text_text|done].
Qed.

(** C6.  Neither builder replays a message without text: every message of
    the replayed history has a non-empty content, and a conversation with an
    empty-text message anywhere in it yields the very prompt of the
    conversation without that message. *)
Theorem empty_text_is_never_replayed
    (conversation before after : list ConversationMesage)
    (blank : ConversationMesage) (goal lang store_goal : string) :
  Forall (fun mm => content mm <> EmptyString)
    (history_for_user conversation goal lang)
  /\ Forall (fun mm => content mm <> EmptyString)
       (history_for_store conversation store_goal)
  /\ (has_text blank = false ->
      conversationForUser (before ++ blank :: after) goal lang
      = conversationForUser (before ++ after) goal lang
      /\ conversationForStore (before ++ blank :: after) store_goal
         = conversationForStore (before ++ after) store_goal).
Proof.
  split; [apply history_for_user_text|].
  split; [apply history_for_store_text|].
  intros Hblank. unfold conversationForUser, conversationForStore.
  rewrite !filter_has_text_app. simpl. rewrite Hblank. done.
Qed.

(** C7.  On the buyer's side a buyer message is replayed as [assistant] and
    a store message as [user]; on the store's side a store message is
    replayed as [assistant] and a buyer message as [user].  The replayed
    messages are, in order, the messages of the conversation that have text,
    each with its text as content. *)
Theorem persona_played_is_assistant
    (conversation : list ConversationMesage) (goal lang store_goal : string) :
  Forall2
    (fun m mm =>
       content mm = message m
       /\ role mm = match from m with buyer => assistant | store => user end)
    (List.filter has_text conversation)
    (history_for_user conversation goal lang)
  /\ Forall2
       (fun m mm =>
          content mm = message m
          /\ role mm = match from m with store => assistant | buyer => user end)
       (List.filter has_text conversation)
       (history_for_store conversation store_goal).
Proof.
  unfold history_for_user, history_for_store, conversationForUser,
    conversationForStore; simpl.
  split; apply Forall2_fmap_r, Forall_Forall2_diag, Forall_forall;
    intros [[] msg] _; done.
Qed.

(** ** The schema of a judgement *)

Definition metric_names : list string :=
  ["quality"; "correctness"; "grammar"; "completeness"].

Definition metric (reasoning : string) (score : Q) : Json :=
  JObject [("reasoning", JString reasoning); ("score", JNumber score)].

Definition judgement (quality correctness grammar completeness : Json) : Json :=
  JObject
    [ ("quality", quality); ("correctness", correctness);
      ("grammar", grammar); ("completeness", completeness) ].

Lemma metricSchema_parse description v v' :
  zod_parse (metricSchema description) v = Some v' ->
  exists reasoning score, v' = metric reasoning score.
Proof.
  destruct v as [| | | | |props]; try discriminate. cbn.
  destruct (obj_get "reasoning" props) as [[| | |reasoning| |]|]; try discriminate.
  destruct (obj_get "score" props) as [[| |score| | |]|]; try discriminate.
  cbn. intros [= <-]. by exists reasoning, score.
Qed.

Lemma judgerSchema_parse raw object :
  zod_parse judgerSchema raw = Some object ->
  exists r1 s1 r2 s2 r3 s3 r4 s4,
    object = judgement (metric r1 s1) (metric r2 s2) (metric r3 s3) (metric r4 s4).
Proof.
  destruct raw as [| | | | |props]; try discriminate.
  unfold judgerSchema.
  cbn -[metricSchema obj_get].
  destruct (obj_get "quality" props) as [v1|]; [|discriminate].
  destruct (zod_parse (metricSchema _) v1) as [v1'|] eqn:H1; [|discriminate].
  destruct (obj_get "correctness" props) as [v2|]; [|discriminate].
  destruct (zod_parse (metricSchema _) v2) as [v2'|] eqn:H2; [|discriminate].
  destruct (obj_get "grammar" props) as [v3|]; [|discriminate].
  destruct (zod_parse (metricSchema _) v3) as [v3'|] eqn:H3; [|discriminate].
  destruct (obj_get "completeness" props) as [v4|]; [|discriminate].
  destruct (zod_parse (metricSchema _) v4) as [v4'|] eqn:H4; [|discriminate].
  cbn. intros [= <-].
  apply metricSchema_parse in H1 as (r1 & s1 & ->).
  apply metricSchema_parse in H2 as (r2 & s2 & ->).
  apply metricSchema_parse in H3 as (r3 & s3 & ->).
  apply metricSchema_parse in H4 as (r4 & s4 & ->).
  by exists r1, s1, r2, s2, r3, s3, r4, s4.
Qed.

(** The schema constrains neither the reasoning nor the score. *)
Lemma judgerSchema_accepts r1 s1 r2 s2 r3 s3 r4 s4 :
  zod_parse judgerSchema
    (judgement (metric r1 s1) (metric r2 s2) (metric r3 s3) (metric r4 s4))
  = Some (judgement (metric r1 s1) (metric r2 s2) (metric r3 s3) (metric r4 s4)).
Proof. reflexivity. Qed.

(** A judgement as the specification describes it: the four metrics, each
    with a reasoning that is not empty and a score within a documented
    scale (either of the two). *)
Definition documented_metric (v : Json) : Prop :=
  exists reasoning score,
    v = metric reasoning score
    /\ reasoning <> EmptyString
    /\ (in_rubric_scale score \/ in_schema_scale score).

Definition documented_judgement (object : Json) : Prop :=
  exists quality correctness grammar completeness,
    object = judgement quality correctness grammar completeness
    /\ documented_metric quality /\ documented_metric correctness
    /\ documented_metric grammar /\ documented_metric completeness.

(** ** The conversation loop *)

Definition buyer_request (goal : string) (model : LanguageModel)
    (conversation : list ConversationMesage) : TextRequest :=
  {| text_model := model;
     text_messages := conversationForUser conversation goal language;
     text_tools := ["finishedGoal"] |}.

Definition store_request (model : LanguageModel)
    (conversation : list ConversationMesage) : TextRequest :=
  {| text_model := model;
     text_messages := conversationForStore conversation storeGoal;
     text_tools := [] |}.

(** [w'] is [w] after the model calls [made]: the files are untouched and
    the console has only grown. *)
Definition after_calls (w : World) (made : list ModelCall) (w' : World) : Prop :=
  ticks w' = ticks w + length made
  /\ files w' = files w
  /\ calls w' = calls w ++ made
  /\ exists lines, console w' = console w ++ lines.

Lemma after_calls_refl w : after_calls w [] w.
Proof.
  repeat split; simpl; try lia; try by rewrite app_nil_r.
  exists []. by rewrite app_nil_r.
Qed.

Lemma after_calls_trans w1 w2 w3 made1 made2 :
  after_calls w1 made1 w2 -> after_calls w2 made2 w3 ->
  after_calls w1 (made1 ++ made2) w3.
Proof.
  intros (Ht1 & Hf1 & Hc1 & l1 & Hl1) (Ht2 & Hf2 & Hc2 & l2 & Hl2).
  repeat split.
  - rewrite Ht2, Ht1, length_app. lia.
  - congruence.
  - rewrite Hc2, Hc1. by rewrite app_assoc.
  - exists (l1 ++ l2). rewrite Hl2, Hl1. by rewrite app_assoc.
Qed.

Lemma print_after entry w :
  exists w', print entry w = (Returned tt, w') /\ after_calls w [] w'.
Proof.
  eexists. split; [reflexivity|].
  repeat split; simpl; try lia; try by rewrite app_nil_r.
  by eexists.
Qed.

Lemma run_execute_after goalModel results w :
  exists w', run_execute goalModel results w = (Returned tt, w')
             /\ after_calls w [] w'.
Proof.
  revert w. induction results as [|result results IH]; intros w.
  - exists w. split; [done|apply after_calls_refl].
  - simpl. unfold bind at 1.
    destruct (String.eqb (toolName result) "finishedGoal").
    + destruct (print_after (Info (goalModel +:+ " - Finished goal: "
                  +:+ bool_text (finished result) +:+ " "
                  +:+ information result)) w) as (w1 & -> & H1).
      destruct (IH w1) as (w2 & -> & H2).
      exists w2. split; [done|]. apply (after_calls_trans _ _ _ [] [] H1 H2).
    + apply IH.
Qed.

Lemma generateText_after request w :
  exists w', generateText request w = (model_text_at env (ticks w) request, w')
             /\ after_calls w [TextCall request] w'.
Proof.
  unfold generateText, bind, ask, record_call, of_completion; simpl.
  destruct (model_text_at env (ticks w) request); simpl;
    (eexists; split; [reflexivity|]);
    (repeat split; simpl; try lia; try done; exists []; by rewrite app_nil_r).
Qed.

Definition buyer_says (r : GenerateTextResult) : ConversationMesage :=
  {| from := buyer; message := text r |}.

Definition store_says (r : GenerateTextResult) : ConversationMesage :=
  {| from := store; message := text r |}.

(** What one turn does, by the answers of the model. *)
Inductive TurnOutcome (goal : string) (model : LanguageModel)
    (st : RunState) : Completion LoopSignal -> RunState -> Prop :=
| buyer_call_throws e st' :
    model_text_at env (ticks (run_world st))
      (buyer_request goal model (run_conversation st)) = Thrown e ->
    run_conversation st' = run_conversation st ->
    after_calls (run_world st)
      [TextCall (buyer_request goal model (run_conversation st))]
      (run_world st') ->
    TurnOutcome goal model st (Thrown e) st'
| buyer_finishes r st' :
    model_text_at env (ticks (run_world st))
      (buyer_request goal model (run_conversation st)) = Returned r ->
    called_finishedGoal (staticToolResults r) = true ->
    run_conversation st' = run_conversation st ->
    after_calls (run_world st)
      [TextCall (buyer_request goal model (run_conversation st))]
      (run_world st') ->
    TurnOutcome goal model st (Returned Break) st'
| store_call_throws r e st' :
    model_text_at env (ticks (run_world st))
      (buyer_request goal model (run_conversation st)) = Returned r ->
    called_finishedGoal (staticToolResults r) = false ->
    model_text_at env (S (ticks (run_world st)))
      (store_request model (run_conversation st ++ [buyer_says r])) = Thrown e ->
    run_conversation st' = run_conversation st ++ [buyer_says r] ->
    after_calls (run_world st)
      [TextCall (buyer_request goal model (run_conversation st));
       TextCall (store_request model (run_conversation st ++ [buyer_says r]))]
      (run_world st') ->
    TurnOutcome goal model st (Thrown e) st'
| both_speak r r' st' :
    model_text_at env (ticks (run_world st))
      (buyer_request goal model (run_conversation st)) = Returned r ->
    called_finishedGoal (staticToolResults r) = false ->
    model_text_at env (S (ticks (run_world st)))
      (store_request model (run_conversation st ++ [buyer_says r])) = Returned r' ->
    run_conversation st' = run_conversation st ++ [buyer_says r; store_says r'] ->
    after_calls (run_world st)
      [TextCall (buyer_request goal model (run_conversation st));
       TextCall (store_request model (run_conversation st ++ [buyer_says r]))]
      (run_world st') ->
    TurnOutcome goal model st (Returned Continue) st'.

Ltac chain_after :=
  repeat match goal with
  | H1 : after_calls ?a ?m1 ?b, H2 : after_calls ?b ?m2 ?c |- _ =>
      pose proof (after_calls_trans _ _ _ _ _ H1 H2); clear H1 H2
  end.

Lemma turn_outcome goal goalModel model i st :
  let (r, st') := turn goal goalModel model i st in
  TurnOutcome goal model st r st'.
Proof.
  destruct st as [w c]. unfold turn.
  unfold bind at 1. unfold in_world at 1. simpl run_world. simpl run_conversation.
  destruct (print_after (Info (goalModel +:+ " - Iteration " +:+ pretty i)) w)
    as (w1 & -> & H1).
  unfold bind at 1. unfold read_conversation at 1. simpl run_conversation.
  unfold bind at 1. unfold in_world at 1. simpl run_world. simpl run_conversation.
  unfold bind at 1.
  destruct (generateText_after (buyer_request goal model c) w1) as (w2 & Hg & H2).
  unfold buyer_request in Hg. rewrite Hg. clear Hg.
  assert (Ht1 : ticks w1 = ticks w) by (destruct H1 as (-> & _); simpl; lia).
  rewrite Ht1.
  destruct (model_text_at env (ticks w) _) as [r|e] eqn:Hbuyer.
  2:{ simpl. eapply buyer_call_throws; simpl; [exact Hbuyer|done|].
      chain_after. done. }
  unfold bind at 1.
  destruct (run_execute_after goalModel (staticToolResults r) w2)
    as (w3 & -> & H3).
  unfold ret at 1.
  destruct (called_finishedGoal (staticToolResults r)) eqn:Hfin.
  { unfold bind at 1. unfold in_world at 1. simpl run_world.
    destruct (print_after (Log "Finishing early") w3) as (w4 & -> & H4).
    simpl. eapply buyer_finishes; simpl; [exact Hbuyer|done|done|].
    chain_after. done. }
  unfold bind at 1. unfold in_world at 1. simpl run_world. simpl run_conversation.
  destruct (print_after (Info (goalModel +:+ " - User message: " +:+ text r)) w3)
    as (w4 & -> & H4).
  unfold bind at 1. unfold conversation_push at 1. simpl run_world.
  simpl run_conversation.
  unfold bind at 1. unfold read_conversation at 1. simpl run_conversation.
  unfold bind at 1. unfold in_world at 1. simpl run_world. simpl run_conversation.
  destruct (generateText_after
              (store_request model (c ++ [buyer_says r])) w4) as (w5 & Hg & H5).
  unfold store_request, buyer_says in Hg. rewrite Hg. clear Hg.
  assert (Ht4 : ticks w4 = S (ticks w)).
  { destruct H4 as (-> & _), H3 as (-> & _), H2 as (-> & _). simpl. lia. }
  rewrite Ht4.
  destruct (model_text_at env (S (ticks w)) _) as [r'|e] eqn:Hstore.
  2:{ simpl. eapply store_call_throws; simpl; [exact Hbuyer|done|exact Hstore|done|].
      chain_after. done. }
  unfold bind at 1. unfold in_world at 1. simpl run_world. simpl run_conversation.
  destruct (print_after (Info (goalModel +:+ " - Store message: " +:+ text r')) w5)
    as (w6 & -> & H6).
  unfold bind at 1. unfold conversation_push at 1. simpl.
  eapply both_speak; simpl; [exact Hbuyer|done|exact Hstore| |].
  - by rewrite <- app_assoc.
  - chain_after. done.
Qed.

(** Buyer and store take turns, the buyer first. *)
Definition alternates (conversation : list ConversationMesage) : Prop :=
  forall i m, conversation !! i = Some m ->
    from m = if Nat.even i then buyer else store.

Lemma alternates_nil : alternates [].
Proof. intros i m H. by rewrite lookup_nil in H. Qed.

Lemma alternates_snoc conversation m :
  alternates conversation ->
  from m = (if Nat.even (length conversation) then buyer else store) ->
  alternates (conversation ++ [m]).
Proof.
  intros Halt Hm i m' Hi.
  destruct (decide (i < length conversation)) as [Hlt|Hge].
  - rewrite lookup_app_l in Hi by done. by apply Halt.
  - rewrite lookup_app_r in Hi by lia.
    destruct (i - length conversation) as [|k] eqn:Hk; simpl in Hi; [|done].
    injection Hi as <-. by replace i with (length conversation) by lia.
Qed.

Lemma alternates_exchange conversation r r' :
  alternates conversation -> Nat.even (length conversation) = true ->
  alternates (conversation ++ [buyer_says r; store_says r']).
Proof.
  intros Halt Heven.
  change [buyer_says r; store_says r'] with ([buyer_says r] ++ [store_says r']).
  rewrite app_assoc. apply alternates_snoc; [apply alternates_snoc|]; try done.
  - by rewrite Heven.
  - rewrite length_app; simpl. rewrite Nat.add_1_r, Nat.even_succ.
    by rewrite <- Nat.negb_even, Heven.
Qed.

(** A model call whose prompt is what one of the two builders makes of some
    conversation. *)
Definition built_prompt (goal : string) (model : LanguageModel)
    (call : ModelCall) : Prop :=
  exists conversation,
    call = TextCall (buyer_request goal model conversation)
    \/ call = TextCall (store_request model conversation).

Lemma for_loop_S {St} remaining i (body : nat -> Eff St LoopSignal) st :
  for_loop (S remaining) i body st =
  match body i st with
  | (Returned Continue, st') => for_loop remaining (S i) body st'
  | (Returned Break, st') => (Returned tt, st')
  | (Thrown e, st') => (Thrown e, st')
  end.
Proof. simpl. unfold bind. by destruct (body i st) as [[[]|] ?]. Qed.

(** What the loop leaves behind, from any turn on. *)
Lemma for_loop_turns goal goalModel model remaining :
  forall i st r st',
    for_loop remaining i (turn goal goalModel model) st = (r, st') ->
    run_conversation st `prefix_of` run_conversation st'
    /\ (exists made,
          calls (run_world st') = calls (run_world st) ++ made
          /\ Forall (built_prompt goal model) made)
    /\ files (run_world st') = files (run_world st)
    /\ (alternates (run_conversation st) ->
        Nat.even (length (run_conversation st)) = true ->
        alternates (run_conversation st')
        /\ length (run_conversation st')
           <= length (run_conversation st) + 2 * remaining)
    /\ (forall e, r = Thrown e ->
        exists t request, model_text_at env t request = Thrown e).
Proof.
  induction remaining as [|remaining IH]; intros i st r st' Hloop.
  - injection Hloop as <- <-.
    split; [done|split; [|split; [done|split]]]; [| |done].
    + exists []. by rewrite app_nil_r.
    + intros Halt _. split; [done|lia].
  - rewrite for_loop_S in Hloop.
    pose proof (turn_outcome goal goalModel model i st) as Hturn.
    destruct (turn goal goalModel model i st) as [r1 st1].
    destruct Hturn as [e st1 Hb Hc Ha|rb st1 Hb Hfin Hc Ha
                      |rb e st1 Hb Hfin Hs Hc Ha|rb rs st1 Hb Hfin Hs Hc Ha];
      destruct Ha as (_ & Hf & Hcalls & _).
    + injection Hloop as <- <-. rewrite Hc.
      split; [done|split; [|split; [done|split]]].
      * eexists. split; [exact Hcalls|]. repeat constructor. by eexists; left.
      * intros Halt _. split; [done|lia].
      * intros e' [= <-]. eauto.
    + injection Hloop as <- <-. rewrite Hc.
      split; [done|split; [|split; [done|split]]]; [| |done].
      * eexists. split; [exact Hcalls|]. repeat constructor. by eexists; left.
      * intros Halt _. split; [done|lia].
    + injection Hloop as <- <-. rewrite Hc.
      split; [by apply prefix_app_r|split; [|split; [done|split]]].
      * eexists. split; [exact Hcalls|].
        repeat constructor; eexists; [by left|by right].
      * intros Halt Heven. split.
        -- apply alternates_snoc; [done|]. by rewrite Heven.
        -- rewrite length_app; simpl. lia.
      * intros e' [= <-]. eauto.
    + apply IH in Hloop as (Hp & (made & Hmade & Hbuilt) & Hf' & Hinv & Hthrow).
      rewrite Hc in Hp, Hinv. rewrite Hcalls in Hmade.
      split; [|split; [|split; [congruence|split]]]; [| | |done].
      * etrans; [|exact Hp]. by apply prefix_app_r.
      * eexists. split; [by rewrite Hmade, <- app_assoc|].
        apply Forall_app. split; [|done].
        repeat constructor; eexists; [by left|by right].
      * intros Halt Heven.
        destruct Hinv as [Halt' Hlen].
        -- by apply alternates_exchange.
        -- by rewrite length_app, Nat.add_comm.
        -- split; [done|].
           rewrite length_app in Hlen; simpl in Hlen. lia.
Qed.

(** ** One run of the simulator *)

(** The state in which the [try] block starts: an identifier and the start
    time have been drawn and the banner printed. *)
Definition at_try (goal modelName : string) (w : World) : RunState :=
  {| run_world :=
       {| ticks := S (S (ticks w));
          files := files w;
          console :=
            console w
            ++ [Info ("=== Running case " +:+ (modelName +:+ ":" +:+ goal)
                      +:+ " ===")];
          calls := calls w |};
     run_conversation := [] |}.

Definition try_block (goal modelName : string) (model : LanguageModel)
    : Eff RunState unit :=
  for_loop MAX_CONVERSATION_LENGTH 0
    (turn goal (modelName +:+ ":" +:+ goal) model).

(** What the [catch] block prints. *)
Definition diagnostics (goal modelName : string)
    (conversation : list ConversationMesage) (error : JsError)
    : list ConsoleEntry :=
  [ Error ((modelName +:+ ":" +:+ goal) +:+ " - Error: " +:+ error);
    LogDiagnostics conversation
      (conversationForUser conversation goal language)
      (conversationForStore conversation storeGoal) ].

Lemma runCase_unfold goal modelName model w :
  runCase goal modelName model w =
  let (r, st) := try_block goal modelName model (at_try goal modelName w) in
  let startTime := Date_now_at env (S (ticks w)) in
  let endTime := Date_now_at env (ticks (run_world st)) in
  (Returned
     {| result_goal := goal; result_model := model;
        result_conversation := run_conversation st;
        result_startTime := startTime; result_endTime := endTime |},
   {| ticks := S (ticks (run_world st));
      files :=
        <[results_path (nanoid_at env (ticks w)) :=
            JSON_stringify
              (run_record goal modelName model (run_conversation st)
                 startTime endTime) 2]> (files (run_world st));
      console :=
        match r with
        | Returned _ => console (run_world st)
        | Thrown e =>
            console (run_world st)
            ++ diagnostics goal modelName (run_conversation st) e
        end;
      calls := calls (run_world st) |}).
Proof.
  unfold runCase, runCase_frame, try_block, at_try.
  cbn -[for_loop turn MAX_CONVERSATION_LENGTH].
  unfold bind at 1, try_catch at 1.
  match goal with
  | |- context [for_loop ?n ?i ?b ?s] =>
      destruct (for_loop n i b s) as [[[]|e] [w1 c1]]
  end; cbn.
  - reflexivity.
  - unfold diagnostics. by rewrite <- app_assoc.
Qed.

Lemma try_block_spec goal modelName model w r st :
  try_block goal modelName model (at_try goal modelName w) = (r, st) ->
  files (run_world st) = files w
  /\ (exists made,
        calls (run_world st) = calls w ++ made
        /\ Forall (built_prompt goal model) made)
  /\ alternates (run_conversation st)
  /\ length (run_conversation st) <= 2 * MAX_CONVERSATION_LENGTH
  /\ (forall e, r = Thrown e ->
      exists t request, model_text_at env t request = Thrown e).
Proof.
  intros Hloop.
  apply for_loop_turns in Hloop as (_ & Hmade & Hf & Hinv & Hthrow).
  destruct Hinv as [Halt Hlen]; [apply alternates_nil|done|].
  simpl in *. done.
Qed.

(** Every prompt a run hands to the model is built by one of the two
    builders, so none of them replays a message without text. *)
Lemma run_prompts_replay_no_empty_text goal modelName model w :
  exists made,
    calls (snd (runCase goal modelName model w)) = calls w ++ made
    /\ Forall
         (fun call =>
            exists conversation,
              (call = TextCall (buyer_request goal model conversation)
               /\ Forall (fun mm => content mm <> EmptyString)
                    (history_for_user conversation goal language))
              \/ (call = TextCall (store_request model conversation)
                  /\ Forall (fun mm => content mm <> EmptyString)
                       (history_for_store conversation storeGoal)))
         made.
Proof.
  rewrite runCase_unfold.
  destruct (try_block _ _ _ _) as [r st] eqn:Hloop.
  apply try_block_spec in Hloop as (_ & (made & Hmade & Hbuilt) & _).
  exists made. split; [exact Hmade|].
  eapply Forall_impl; [exact Hbuilt|].
  intros call [conversation [->| ->]]; exists conversation.
  - left. split; [done|apply history_for_user_text].
  - right. split; [done|apply history_for_store_text].
Qed.

(** C3.  Every run returns, and the conversation it returns and writes to
    [./results] has at most [2 * MAX_CONVERSATION_LENGTH] (twenty) messages,
    which alternate between buyer and store; the first one, if any, is the
    buyer's. *)
Theorem conversation_is_bounded_and_alternates goal modelName model w :
  exists res w',
    runCase goal modelName model w = (Returned res, w')
    /\ files w' !! results_path (nanoid_at env (ticks w))
       = Some (JSON_stringify
                 (run_record goal modelName model (result_conversation res)
                    (result_startTime res) (result_endTime res)) 2)
    /\ length (result_conversation res) <= 2 * MAX_CONVERSATION_LENGTH
    /\ MAX_CONVERSATION_LENGTH = 10
    /\ alternates (result_conversation res)
    /\ (forall m, head (result_conversation res) = Some m -> from m = buyer).
Proof.
  rewrite runCase_unfold.
  destruct (try_block _ _ _ _) as [r st] eqn:Hloop.
  apply try_block_spec in Hloop as (_ & _ & Halt & Hlen & _).
  eexists _, _. split; [reflexivity|]. simpl.
  split; [by rewrite lookup_insert_eq|].
  split; [done|]. split; [done|]. split; [done|].
  intros m Hm. apply (Halt 0 m). by rewrite <- head_lookup.
Qed.

(** C1, as the code has it.  When a model call throws inside the loop, the
    run still returns: the error and the partial conversation are printed,
    and a run record holding that partial conversation is written to
    [./results] under the run's identifier, as for a run that did not fail;
    no other file changes. *)
Theorem failed_run_is_persisted goal modelName model w e st :
  try_block goal modelName model (at_try goal modelName w) = (Thrown e, st) ->
  exists res w',
    runCase goal modelName model w = (Returned res, w')
    /\ (exists t request, model_text_at env t request = Thrown e)
    /\ result_conversation res = run_conversation st
    /\ console w'
       = console (run_world st)
         ++ diagnostics goal modelName (run_conversation st) e
    /\ files w'
       = <[results_path (nanoid_at env (ticks w)) :=
             JSON_stringify
               (run_record goal modelName model (run_conversation st)
                  (result_startTime res) (result_endTime res)) 2]> (files w).
Proof.
  intros Hloop. rewrite runCase_unfold, Hloop.
  apply try_block_spec in Hloop as (Hf & _ & _ & _ & Hthrow).
  eexists _, _. split; [reflexivity|]. simpl.
  split; [by apply Hthrow|]. split; [done|]. split; [done|].
  by rewrite Hf.
Qed.

(** C4.  On a turn whose buyer-side call reports a result of the tool
    [finishedGoal], the loop ends at once, whatever number of turns is left:
    the conversation is what it was when the turn began, and the buyer-side
    call is the only model call made. *)
Theorem finishedGoal_ends_the_loop goal goalModel model remaining i st r :
  model_text_at env (ticks (run_world st))
    (buyer_request goal model (run_conversation st)) = Returned r ->
  called_finishedGoal (staticToolResults r) = true ->
  exists st',
    for_loop (S remaining) i (turn goal goalModel model) st = (Returned tt, st')
    /\ run_conversation st' = run_conversation st
    /\ after_calls (run_world st)
         [TextCall (buyer_request goal model (run_conversation st))]
         (run_world st').
Proof.
  intros Hbuyer Hfin. rewrite for_loop_S.
  pose proof (turn_outcome goal goalModel model i st) as Hturn.
  destruct (turn goal goalModel model i st) as [r1 st1].
  destruct Hturn as [e st1 Hb Hc Ha|rb st1 Hb Hfin' Hc Ha
                    |rb e st1 Hb Hfin' Hs Hc Ha|rb rs st1 Hb Hfin' Hs Hc Ha];
    rewrite Hbuyer in Hb; try discriminate; injection Hb as <-;
    try congruence.
  by exists st1.
Qed.

(** The loop pushes what the model answers, as it is: the [k]-th model call
    of the loop, the buyer's for an even [k] and the store's for an odd one,
    gives the [k]-th message pushed, with the text of the answer, unless the
    call threw or reported a result of [finishedGoal]. *)
Lemma for_loop_verbatim goal goalModel model remaining :
  forall i st r st',
    for_loop remaining i (turn goal goalModel model) st = (r, st') ->
    exists made,
      calls (run_world st') = calls (run_world st) ++ made
      /\ forall k request answer,
           made !! k = Some (TextCall request) ->
           model_text_at env (ticks (run_world st) + k) request = Returned answer ->
           (Nat.even k = true ->
            called_finishedGoal (staticToolResults answer) = false) ->
           run_conversation st' !! (length (run_conversation st) + k)
           = Some {| from := if Nat.even k then buyer else store;
                     message := text answer |}.
Proof.
  induction remaining as [|remaining IH]; intros i st r st' Hloop.
  - injection Hloop as <- <-. exists []. split; [by rewrite app_nil_r|].
    intros k request answer Hk. by rewrite lookup_nil in Hk.
  - rewrite for_loop_S in Hloop.
    pose proof (turn_outcome goal goalModel model i st) as Hturn.
    destruct (turn goal goalModel model i st) as [r1 st1].
    destruct Hturn as [e st1 Hb Hc Ha|rb st1 Hb Hfin Hc Ha
                      |rb e st1 Hb Hfin Hs Hc Ha|rb rs st1 Hb Hfin Hs Hc Ha];
      destruct Ha as (Hticks & _ & Hcalls & _).
    + injection Hloop as <- <-. eexists. split; [exact Hcalls|].
      intros [|k] request answer Hk Hans Hgo; simpl in Hk; [|done].
      injection Hk as <-. rewrite Nat.add_0_r in Hans. congruence.
    + injection Hloop as <- <-. eexists. split; [exact Hcalls|].
      intros [|k] request answer Hk Hans Hgo; simpl in Hk; [|done].
      injection Hk as <-. rewrite Nat.add_0_r in Hans.
      rewrite Hb in Hans. injection Hans as <-.
      specialize (Hgo eq_refl). congruence.
    + injection Hloop as <- <-. eexists. split; [exact Hcalls|].
      intros [|[|k]] request answer Hk Hans Hgo; simpl in Hk; [| |done].
      * injection Hk as <-. rewrite Nat.add_0_r in Hans.
        rewrite Hb in Hans. injection Hans as <-.
        rewrite Hc, lookup_app_r, Nat.add_0_r, Nat.sub_diag by lia. done.
      * injection Hk as <-. rewrite Nat.add_1_r in Hans. congruence.
    + pose proof (for_loop_turns _ _ _ _ _ _ _ _ Hloop) as (Hprefix & _).
      apply IH in Hloop as (made & Hmade & Hpushed).
      eexists. split; [by rewrite Hmade, Hcalls, <- app_assoc|].
      intros [|[|k]] request answer Hk Hans Hgo; simpl in Hk.
      * injection Hk as <-. rewrite Nat.add_0_r in Hans.
        rewrite Hb in Hans. injection Hans as <-.
        eapply prefix_lookup_Some; [|exact Hprefix].
        rewrite Hc, lookup_app_r, Nat.add_0_r, Nat.sub_diag by lia. done.
      * injection Hk as <-. rewrite Nat.add_1_r in Hans.
        rewrite Hs in Hans. injection Hans as <-.
        eapply prefix_lookup_Some; [|exact Hprefix].
        rewrite Hc, lookup_app_r by lia.
        by replace (length (run_conversation st) + 1
                    - length (run_conversation st)) with 1 by lia.
      * specialize (Hpushed k request answer Hk).
        rewrite Hticks, Hc, length_app in Hpushed. simpl in Hpushed.
        replace (length (run_conversation st) + 2 + k)
          with (length (run_conversation st) + S (S k)) in Hpushed by lia.
        replace (ticks (run_world st) + 2 + k)
          with (ticks (run_world st) + S (S k)) in Hpushed by lia.
        change (Nat.even (S (S k))) with (Nat.even k). by apply Hpushed.
Qed.

(** C10.  A message without text is pushed and persisted like any other,
    whichever persona gave it.  When the [k]-th model call of a run (the
    buyer's for an even [k], the store's for an odd one) returns an empty
    text, and no result of [finishedGoal] if it is the buyer's, the run
    returns a conversation whose [k]-th message is that persona's and has no
    text, and the document written to [./results/<id>.json] holds that very
    conversation.  The filter works on prompts only: in no prompt of the run
    does a message after the system instruction have an empty content. *)
Theorem empty_text_is_persisted goal modelName model w k request answer :
  calls (snd (runCase goal modelName model w)) !! (length (calls w) + k)
  = Some (TextCall request) ->
  model_text_at env (ticks w + 2 + k) request = Returned answer ->
  (Nat.even k = true -> called_finishedGoal (staticToolResults answer) = false) ->
  text answer = EmptyString ->
  exists res w',
    runCase goal modelName model w = (Returned res, w')
    /\ result_conversation res !! k
       = Some {| from := if Nat.even k then buyer else store;
                 message := EmptyString |}
    /\ files w' !! ("./results/" +:+ nanoid_at env (ticks w) +:+ ".json")
       = Some (JSON_stringify
                 (JObject
                    [ ("goal", JString goal);
                      ("modelName", JString modelName);
                      ("model", model_toJSON model);
                      ("conversation",
                       JArray
                         (map (fun message0 =>
                                 JObject
                                   [ ("from",
                                      JString match from message0 with
                                              | buyer => "buyer"
                                              | store => "store"
                                              end);
                                     ("message", JString (message message0)) ])
                              (result_conversation res)));
                      ("startTime", JNumber (inject_Z (result_startTime res)));
                      ("endTime", JNumber (inject_Z (result_endTime res))) ])
                 2)
    /\ (forall j request',
          calls w' !! (length (calls w) + j) = Some (TextCall request') ->
          Forall (fun mm => content mm <> EmptyString)
            (drop 1 (text_messages request'))).
Proof.
  rewrite runCase_unfold.
  destruct (try_block _ _ _ _) as [r st] eqn:Hloop.
  cbn [snd calls]. intros Hcall Hanswer Hgo Htext.
  eexists _, _. split; [reflexivity|]. cbn [result_conversation files calls].
  unfold try_block in Hloop.
  pose proof (for_loop_verbatim _ _ _ _ _ _ _ _ Hloop) as (made & Hmade & Hpushed).
  apply for_loop_turns in Hloop as (_ & (made' & Hmade' & Hbuilt) & _).
  simpl in Hmade, Hmade', Hpushed.
  assert (made' = made) as -> by (rewrite Hmade in Hmade'; by simplify_list_eq).
  split; [|split].
  - rewrite Hmade, lookup_app_r, Nat.add_comm, Nat.add_sub in Hcall by lia.
    specialize (Hpushed k request answer Hcall).
    replace (S (S (ticks w + k))) with (ticks w + 2 + k) in Hpushed by lia.
    rewrite <- Htext. by apply Hpushed.
  - by rewrite lookup_insert_eq.
  - intros j request' Hj.
    rewrite Hmade, lookup_app_r, Nat.add_comm, Nat.add_sub in Hj by lia.
    apply list_elem_of_lookup_2 in Hj.
    rewrite Forall_forall in Hbuilt.
    destruct (Hbuilt _ Hj) as [conversation [[= ->]|[= ->]]].
    + change (drop 1 (text_messages (buyer_request goal model conversation)))
        with ({| role := assistant;
                 content := "Connected to store 'Mountain Peak'" |}
              :: history_for_user conversation goal language).
      constructor; [done|apply history_for_user_text].
    + apply (history_for_store_text conversation storeGoal).
Qed.

(** ** More on one run: what it calls, writes and returns *)

(** The loop counted: the model calls it makes, the ticks they take and the
    messages it pushes.  Every message comes from one call; the one call
    that may give no message is the one that ended the loop.  A loop that
    ends by a throw has pushed an even number of messages when the buyer's
    call threw and an odd number when the store's did. *)
Lemma for_loop_accounting goal goalModel model remaining :
  forall i st r st',
    for_loop remaining i (turn goal goalModel model) st = (r, st') ->
    exists made d,
      calls (run_world st') = calls (run_world st) ++ made
      /\ ticks (run_world st') = ticks (run_world st) + length made
      /\ length (run_conversation st') = length (run_conversation st) + d
      /\ match r with
         | Returned _ =>
             Nat.even d = true
             /\ (length made = d /\ d = 2 * remaining
                 \/ length made = S d /\ d < 2 * remaining
                    /\ (exists t c rb,
                          model_text_at env t (buyer_request goal model c)
                          = Returned rb
                          /\ called_finishedGoal (staticToolResults rb) = true))
         | Thrown e =>
             length made = S d /\ d < 2 * remaining
             /\ (Nat.even d = true
                 /\ (exists t c,
                       model_text_at env t (buyer_request goal model c) = Thrown e)
                 \/ Nat.even d = false
                    /\ (exists t c,
                          model_text_at env t (store_request model c) = Thrown e))
         end.
Proof.
  induction remaining as [|remaining IH]; intros i st r st' Hloop.
  - injection Hloop as <- <-. exists [], 0.
    rewrite app_nil_r, !Nat.add_0_r. repeat split; try done. by left.
  - rewrite for_loop_S in Hloop.
    pose proof (turn_outcome goal goalModel model i st) as Hturn.
    destruct (turn goal goalModel model i st) as [r1 st1].
    destruct Hturn as [e st1 Hb Hc Ha|rb st1 Hb Hfin Hc Ha
                      |rb e st1 Hb Hfin Hs Hc Ha|rb rs st1 Hb Hfin Hs Hc Ha];
      destruct Ha as (Hticks & _ & Hcalls & _).
    + injection Hloop as <- <-. eexists _, 0.
      split; [exact Hcalls|]. split; [exact Hticks|].
      split; [by rewrite Hc, Nat.add_0_r|]. simpl.
      split; [done|]. split; [lia|]. left. split; [done|]. eauto.
    + injection Hloop as <- <-. eexists _, 0.
      split; [exact Hcalls|]. split; [exact Hticks|].
      split; [by rewrite Hc, Nat.add_0_r|]. simpl.
      split; [done|]. right. split; [done|]. split; [lia|]. eauto.
    + injection Hloop as <- <-. eexists _, 1.
      split; [exact Hcalls|]. split; [exact Hticks|].
      split; [by rewrite Hc, length_app|]. simpl.
      split; [done|]. split; [lia|]. right. split; [done|]. eauto.
    + apply IH in Hloop as (made & d & Hmade & Ht & Hlen & Hr).
      exists ([TextCall (buyer_request goal model (run_conversation st));
               TextCall (store_request model
                           (run_conversation st ++ [buyer_says rb]))] ++ made),
             (2 + d).
      split; [by rewrite Hmade, Hcalls, <- app_assoc|].
      split; [rewrite Ht, Hticks, length_app; simpl; lia|].
      split; [rewrite Hlen, Hc, length_app; simpl; lia|].
      rewrite length_app. change (Nat.even (2 + d)) with (Nat.even d).
      destruct r as [|e].
      * destruct Hr as (Heven & [[Hm Hd]|(Hm & Hd & Hstop)]).
        -- split; [done|]. left. simpl. lia.
        -- split; [done|]. right. split; [simpl; lia|]. split; [lia|done].
      * destruct Hr as (Hm & Hd & Hside).
        split; [simpl; lia|]. split; [lia|done].
Qed.

(** X1.  A run never throws, whatever the model does, and it writes exactly
    one file: [./results/<id>.json] for the identifier drawn first, holding
    the goal, the model and the conversation it also returns.  A file that
    was there under that path is replaced; every other file is as before. *)
Theorem run_writes_exactly_one_file goal modelName model w :
  exists res w',
    runCase goal modelName model w = (Returned res, w')
    /\ result_goal res = goal
    /\ result_model res = model
    /\ files w'
       = <[results_path (nanoid_at env (ticks w)) :=
             JSON_stringify
               (run_record goal modelName model (result_conversation res)
                  (result_startTime res) (result_endTime res)) 2]> (files w)
    /\ (forall path, path <> results_path (nanoid_at env (ticks w)) ->
        files w' !! path = files w !! path).
Proof.
  rewrite runCase_unfold.
  destruct (try_block _ _ _ _) as [r st] eqn:Hloop.
  apply try_block_spec in Hloop as (Hf & _).
  eexists _, _. split; [reflexivity|]. simpl.
  split; [done|]. split; [done|]. rewrite Hf. split; [done|].
  intros path Hpath. by rewrite lookup_insert_ne.
Qed.

(** The calls, the ticks and the times of a run. *)
Lemma runCase_accounted goal modelName model w :
  exists res w' made,
    runCase goal modelName model w = (Returned res, w')
    /\ calls w' = calls w ++ made
    /\ 1 <= length made <= 2 * MAX_CONVERSATION_LENGTH
    /\ length (result_conversation res) <= length made
       <= S (length (result_conversation res))
    /\ ticks w' = ticks w + 3 + length made
    /\ result_startTime res = Date_now_at env (ticks w + 1)
    /\ result_endTime res = Date_now_at env (ticks w + 2 + length made).
Proof.
  rewrite runCase_unfold.
  destruct (try_block _ _ _ _) as [r st] eqn:Hloop.
  unfold try_block in Hloop.
  apply for_loop_accounting in Hloop as (made & d & Hmade & Ht & Hlen & Hr).
  simpl in Hmade, Ht, Hlen.
  eexists _, _, made. split; [reflexivity|]. simpl.
  split; [done|]. rewrite Hlen, Ht.
  assert (1 <= length made <= 2 * MAX_CONVERSATION_LENGTH
          /\ d <= length made <= S d) as [Hb Hd].
  { unfold MAX_CONVERSATION_LENGTH in *.
    destruct r; [destruct Hr as (_ & [[? ?]|(? & ? & _)])|destruct Hr as (? & ? & _)];
      lia. }
  split; [done|]. split; [done|]. split; [lia|].
  split; f_equal; lia.
Qed.

(** X2.  A run makes at most twenty model calls and at least one.  The
    conversation it returns has as many messages as calls were made, or one
    fewer.  Besides its model calls the run asks the outside world three
    questions: the identifier, the start time before the first call and the
    end time after the last. *)
Theorem run_call_accounting goal modelName model w :
  exists res w' made,
    runCase goal modelName model w = (Returned res, w')
    /\ calls w' = calls w ++ made
    /\ 1 <= length made <= 2 * MAX_CONVERSATION_LENGTH
    /\ length (result_conversation res) <= length made
       <= S (length (result_conversation res))
    /\ ticks w' = ticks w + 3 + length made
    /\ result_startTime res = Date_now_at env (ticks w + 1)
    /\ result_endTime res = Date_now_at env (ticks w + 2 + length made).
Proof. apply runCase_accounted. Qed.

(** X3.  When the clock does not go backwards, the end time of a run is not
    before its start time. *)
Theorem end_time_is_not_before_start_time goal modelName model w :
  (forall t t', t <= t' -> (Date_now_at env t <= Date_now_at env t')%Z) ->
  exists res w',
    runCase goal modelName model w = (Returned res, w')
    /\ (result_startTime res <= result_endTime res)%Z.
Proof.
  intros Hclock.
  destruct (runCase_accounted goal modelName model w)
    as (res & w' & made & Hrun & _ & _ & _ & _ & Hstart & Hend).
  exists res, w'. split; [done|]. rewrite Hstart, Hend. apply Hclock. lia.
Qed.



(** X6.  When the very first buyer-side call reports a result of
    [finishedGoal], the run makes that one call and persists a record whose
    conversation is empty. *)
Theorem finishing_at_once_persists_an_empty_conversation
    goal modelName model w r :
  model_text_at env (S (S (ticks w))) (buyer_request goal model []) = Returned r ->
  called_finishedGoal (staticToolResults r) = true ->
  exists res w',
    runCase goal modelName model w = (Returned res, w')
    /\ result_conversation res = []
    /\ calls w' = calls w ++ [TextCall (buyer_request goal model [])]
    /\ files w' !! results_path (nanoid_at env (ticks w))
       = Some (JSON_stringify
                 (JObject
                    [ ("goal", JString goal);
                      ("modelName", JString modelName);
                      ("model", model_toJSON model);
                      ("conversation", JArray []);
                      ("startTime", number_of_Z (result_startTime res));
                      ("endTime", number_of_Z (result_endTime res)) ]) 2).
Proof.
  intros Hbuyer Hfin. rewrite runCase_unfold.
  destruct (try_block _ _ _ _) as [r0 st] eqn:Hloop.
  unfold try_block in Hloop.
  change MAX_CONVERSATION_LENGTH with (S 9) in Hloop.
  rewrite for_loop_S in Hloop.
  pose proof (turn_outcome goal (modelName +:+ ":" +:+ goal) model 0
                (at_try goal modelName w)) as Hturn.
  destruct (turn _ _ _ _ _) as [r1 st1].
  destruct Hturn as [e st1 Hb Hc Ha|rb st1 Hb Hfin' Hc Ha
                    |rb e st1 Hb Hfin' Hs Hc Ha|rb rs st1 Hb Hfin' Hs Hc Ha];
    simpl in Hb; rewrite Hbuyer in Hb; try discriminate; injection Hb as <-;
    try congruence.
  injection Hloop as <- <-. destruct Ha as (_ & _ & Hcalls & _).
  simpl in Hc, Hcalls.
  eexists _, _. split; [reflexivity|]. simpl.
  rewrite Hc. split; [done|]. split; [done|].
  by rewrite lookup_insert_eq.
Qed.

(** ** The judge *)

(** What the attempt made at tick [t] gets: the model's answer, checked
    against the schema. *)
Definition object_outcome (request : ObjectRequest) (t : nat)
    : Completion Json :=
  match model_object_at env t request with
  | Thrown e => Thrown e
  | Returned raw =>
      match zod_parse (object_schema request) raw with
      | Some object => Returned object
      | None => Thrown "No object generated: response did not match schema."
      end
  end.

Lemma generateObject_eq request w :
  generateObject request w =
  (object_outcome request (ticks w),
   {| ticks := S (ticks w); files := files w; console := console w;
      calls := calls w ++ [ObjectCall request] |}).
Proof.
  unfold generateObject, object_outcome, bind, ask, record_call, of_completion.
  simpl. destruct (model_object_at env (ticks w) request) as [raw|e]; [|done].
  simpl. by destruct (zod_parse (object_schema request) raw).
Qed.

Lemma judge_attempt_eq id run w :
  judge_attempt id run w =
  match object_outcome (judge_request run) (ticks w) with
  | Returned object =>
      (Returned tt,
       {| ticks := S (ticks w);
          files :=
            <[judgements_path id :=
                JSON_stringify (judgement_record id run object) 2]> (files w);
          console := console w ++ [Log ("Judging " +:+ id); Log ("Judged " +:+ id)];
          calls := calls w ++ [ObjectCall (judge_request run)] |})
  | Thrown e =>
      (Thrown e,
       {| ticks := S (ticks w);
          files := files w;
          console := console w ++ [Log ("Judging " +:+ id)];
          calls := calls w ++ [ObjectCall (judge_request run)] |})
  end.
Proof.
  unfold judge_attempt. unfold bind at 1. unfold print at 1.
  unfold bind at 1. rewrite generateObject_eq. cbn [ticks files console calls].
  destruct (object_outcome _ _) as [object|e]; [|done].
  unfold bind, print, Bun_write. cbn. by rewrite <- app_assoc.
Qed.

Lemma judge_step id run iteration w :
  judge id run iteration w =
  match judge_attempt id run w with
  | (Returned _, w') => (Returned tt, w')
  | (Thrown e, w') =>
      if gt_dec iteration 10 then (Thrown e, w')
      else judge id run (S iteration) w'
  end.
Proof.
  simp judge. destruct (judge_attempt id run w) as [[[]|e] w']; simpl; [done|].
  destruct (gt_dec iteration 10); simpl; done.
Qed.

Definition fails (request : ObjectRequest) (t : nat) : Prop :=
  exists e, object_outcome request t = Thrown e.

Definition judgement_text (id : string) (run : ExportedConversation)
    (object : Json) : string :=
  JSON_stringify (judgement_record id run object) 2.

(** The attempt that succeeds ends the recursion and writes the judgement. *)
Lemma judge_succeeds id run object n :
  forall iteration w,
    iteration + n <= 11 ->
    (forall k, k < n -> fails (judge_request run) (ticks w + k)) ->
    object_outcome (judge_request run) (ticks w + n) = Returned object ->
    exists w',
      judge id run iteration w = (Returned tt, w')
      /\ files w' = <[judgements_path id := judgement_text id run object]> (files w)
      /\ calls w' = calls w ++ replicate (S n) (ObjectCall (judge_request run)).
Proof.
  induction n as [|n IH]; intros iteration w Hbudget Hfail Hok.
  - rewrite judge_step, judge_attempt_eq.
    rewrite Nat.add_0_r in Hok. rewrite Hok.
    eexists. split; [reflexivity|]. done.
  - rewrite judge_step, judge_attempt_eq.
    destruct (Hfail 0) as [e He]; [lia|]. rewrite Nat.add_0_r in He. rewrite He.
    destruct (gt_dec iteration 10) as [Hgt|_]; [lia|].
    edestruct (IH (S iteration)) as (w' & -> & Hfiles & Hcalls); [lia| | |].
    + intros k Hk. cbn [ticks].
      replace (S (ticks w) + k) with (ticks w + S k) by lia. apply Hfail. lia.
    + cbn [ticks]. replace (S (ticks w) + n) with (ticks w + S n) by lia.
      exact Hok.
    + eexists. split; [reflexivity|]. split; [exact Hfiles|].
      rewrite Hcalls. cbn [calls]. by rewrite <- app_assoc.
Qed.

(** When every attempt fails, the last error is thrown and nothing is
    written. *)
Lemma judge_gives_up id run n :
  forall iteration w,
    iteration + n = 11 ->
    (forall k, k <= n -> fails (judge_request run) (ticks w + k)) ->
    exists e w',
      judge id run iteration w = (Thrown e, w')
      /\ object_outcome (judge_request run) (ticks w + n) = Thrown e
      /\ files w' = files w
      /\ calls w' = calls w ++ replicate (S n) (ObjectCall (judge_request run)).
Proof.
  induction n as [|n IH]; intros iteration w Hbudget Hfail.
  - rewrite judge_step, judge_attempt_eq.
    destruct (Hfail 0) as [e He]; [lia|]. rewrite He.
    rewrite Nat.add_0_r in He. rewrite He.
    destruct (gt_dec iteration 10) as [_|Hle]; [|lia].
    eexists _, _. split; [reflexivity|]. done.
  - rewrite judge_step, judge_attempt_eq.
    destruct (Hfail 0) as [e He]; [lia|]. rewrite Nat.add_0_r in He. rewrite He.
    destruct (gt_dec iteration 10) as [Hgt|_]; [lia|].
    edestruct (IH (S iteration)) as (e' & w' & -> & Hlast & Hfiles & Hcalls);
      [lia| |].
    + intros k Hk. cbn [ticks].
      replace (S (ticks w) + k) with (ticks w + S k) by lia. apply Hfail. lia.
    + cbn [ticks] in Hlast.
      replace (S (ticks w) + n) with (ticks w + S n) in Hlast by lia.
      eexists _, _. split; [reflexivity|]. split; [exact Hlast|].
      split; [exact Hfiles|].
      rewrite Hcalls. cbn [calls]. by rewrite <- app_assoc.
Qed.

(** Either some attempt among the first [S m] succeeds, or all of them
    fail. *)
Lemma first_success request t m :
  (exists n object,
     n <= m /\ (forall k, k < n -> fails request (t + k))
     /\ object_outcome request (t + n) = Returned object)
  \/ (forall k, k <= m -> fails request (t + k)).
Proof.
  induction m as [|m [(n & object & Hn & Hfail & Hok)|Hall]].
  - destruct (object_outcome request (t + 0)) as [object|e] eqn:H0.
    + left. exists 0, object. split; [lia|]. split; [|done]. intros k Hk. lia.
    + right. intros k Hk. replace k with 0 by lia. by exists e.
  - left. exists n, object. split; [lia|done].
  - destruct (object_outcome request (t + S m)) as [object|e] eqn:HS.
    + left. exists (S m), object. split; [lia|]. split; [|done].
      intros k Hk. apply Hall. lia.
    + right. intros k Hk. destruct (decide (k = S m)) as [->|Hne].
      * by exists e.
      * apply Hall. lia.
Qed.

(** A call of [judge] ends with the first attempt that succeeds among
    twelve, or with the failure of the twelfth. *)
Lemma judge_cases id run w :
  (exists n object w',
     n <= 11
     /\ (forall k, k < n -> fails (judge_request run) (ticks w + k))
     /\ object_outcome (judge_request run) (ticks w + n) = Returned object
     /\ judge id run 0 w = (Returned tt, w')
     /\ files w' = <[judgements_path id := judgement_text id run object]> (files w)
     /\ calls w' = calls w ++ replicate (S n) (ObjectCall (judge_request run)))
  \/ (exists e w',
        (forall k, k <= 11 -> fails (judge_request run) (ticks w + k))
        /\ object_outcome (judge_request run) (ticks w + 11) = Thrown e
        /\ judge id run 0 w = (Thrown e, w')
        /\ files w' = files w
        /\ calls w' = calls w ++ replicate 12 (ObjectCall (judge_request run))).
Proof.
  destruct (first_success (judge_request run) (ticks w) 11)
    as [(n & object & Hn & Hfail & Hok)|Hall].
  - destruct (judge_succeeds id run object n 0 w) as (w' & Hj & Hfiles & Hcalls);
      [lia|done|done|].
    left. by exists n, object, w'.
  - destruct (judge_gives_up id run 11 0 w) as (e & w' & Hj & He & Hfiles & Hcalls);
      [lia|done|].
    right. by exists e, w'.
Qed.

Lemma object_outcome_shape run t object :
  object_outcome (judge_request run) t = Returned object ->
  exists r1 s1 r2 s2 r3 s3 r4 s4,
    object = judgement (metric r1 s1) (metric r2 s2) (metric r3 s3) (metric r4 s4).
Proof.
  unfold object_outcome.
  destruct (model_object_at env t (judge_request run)) as [raw|]; [|discriminate].
  change (object_schema (judge_request run)) with judgerSchema.
  destruct (zod_parse judgerSchema raw) as [object'|] eqn:Hparse;
    [|discriminate].
  intros [= <-]. by apply judgerSchema_parse in Hparse.
Qed.

(** C2, as the code has it.  A call of [judge] returns or throws after at
    least one and at most twelve attempts (eleven retries), all of them with
    the same request; every attempt but the last one failed.  When it
    returns, the last attempt succeeded and its judgement is written.  When
    it throws, twelve attempts were made, the error is that of the twelfth,
    and no file is written; this is what happens when all twelve fail. *)
Theorem judge_retries_eleven_times id run w :
  exists attempts r w',
    judge id run 0 w = (r, w')
    /\ 1 <= attempts <= 12
    /\ calls w' = calls w ++ replicate attempts (ObjectCall (judge_request run))
    /\ (forall k, k < attempts - 1 -> fails (judge_request run) (ticks w + k))
    /\ match r with
       | Returned _ =>
           exists object,
             object_outcome (judge_request run) (ticks w + (attempts - 1))
             = Returned object
             /\ files w'
                = <[judgements_path id := judgement_text id run object]> (files w)
       | Thrown e =>
           attempts = 12
           /\ object_outcome (judge_request run) (ticks w + 11) = Thrown e
           /\ files w' = files w
       end
    /\ ((forall k, k < 12 -> fails (judge_request run) (ticks w + k)) ->
        exists e, r = Thrown e /\ files w' = files w).
Proof.
  destruct (judge_cases id run w)
    as [(n & object & w' & Hn & Hfail & Hok & Hj & Hfiles & Hcalls)
       |(e & w' & Hall & He & Hj & Hfiles & Hcalls)].
  - exists (S n), (Returned tt), w'. split; [done|]. split; [lia|].
    split; [done|]. replace (S n - 1) with n by lia.
    split; [done|]. split; [by exists object|].
    intros Hall. destruct (Hall n) as [e He]; [lia|]. congruence.
  - exists 12, (Thrown e), w'. split; [done|]. split; [lia|].
    split; [done|]. split; [intros k Hk; apply Hall; lia|].
    split; [done|]. intros _. by exists e.
Qed.

(** C5, as the code has it.  What [generateObject] returns to the judge has
    exactly the four metrics quality, correctness, grammar and completeness,
    in this order, each a reasoning string and a numeric score; the schema
    asks for nothing more of either. *)
Theorem judge_result_has_four_metrics run w object w' :
  generateObject (judge_request run) w = (Returned object, w') ->
  obj_keys (own_props object) = metric_names
  /\ exists r1 s1 r2 s2 r3 s3 r4 s4,
       object
       = judgement (metric r1 s1) (metric r2 s2) (metric r3 s3) (metric r4 s4).
Proof.
  rewrite generateObject_eq. intros [= Hobject _].
  apply object_outcome_shape in Hobject
    as (r1 & s1 & r2 & s2 & r3 & s3 & r4 & s4 & ->).
  split; [done|]. by exists r1, s1, r2, s2, r3, s3, r4, s4.
Qed.

(** What the schema reads of an answer. *)
Lemma metricSchema_reads description v v' :
  zod_parse (metricSchema description) v = Some v' ->
  exists fields reasoning score,
    v = JObject fields
    /\ obj_get "reasoning" fields = Some (JString reasoning)
    /\ obj_get "score" fields = Some (JNumber score)
    /\ v' = metric reasoning score.
Proof.
  destruct v as [| | | | |fields]; try discriminate. cbn.
  destruct (obj_get "reasoning" fields) as [[| | |reasoning| |]|] eqn:Hr;
    try discriminate.
  destruct (obj_get "score" fields) as [[| |score| | |]|] eqn:Hs;
    try discriminate.
  cbn. intros [= <-]. by exists fields, reasoning, score.
Qed.

Lemma object_outcome_reads run t object :
  object_outcome (judge_request run) t = Returned object ->
  exists props q c g m r1 s1 r2 s2 r3 s3 r4 s4,
    model_object_at env t (judge_request run) = Returned (JObject props)
    /\ (obj_get "quality" props = Some (JObject q)
        /\ obj_get "reasoning" q = Some (JString r1)
        /\ obj_get "score" q = Some (JNumber s1))
    /\ (obj_get "correctness" props = Some (JObject c)
        /\ obj_get "reasoning" c = Some (JString r2)
        /\ obj_get "score" c = Some (JNumber s2))
    /\ (obj_get "grammar" props = Some (JObject g)
        /\ obj_get "reasoning" g = Some (JString r3)
        /\ obj_get "score" g = Some (JNumber s3))
    /\ (obj_get "completeness" props = Some (JObject m)
        /\ obj_get "reasoning" m = Some (JString r4)
        /\ obj_get "score" m = Some (JNumber s4))
    /\ object
       = judgement (metric r1 s1) (metric r2 s2) (metric r3 s3) (metric r4 s4).
Proof.
  unfold object_outcome.
  destruct (model_object_at env t (judge_request run)) as [raw|]; [|discriminate].
  change (object_schema (judge_request run)) with judgerSchema.
  destruct (zod_parse judgerSchema raw) as [object'|] eqn:Hparse;
    [|discriminate].
  intros [= <-]. destruct raw as [| | | | |props]; try discriminate.
  revert Hparse. cbn -[metricSchema obj_get].
  destruct (obj_get "quality" props) as [v1|] eqn:G1; [|discriminate].
  destruct (zod_parse (metricSchema _) v1) as [v1'|] eqn:H1; [|discriminate].
  destruct (obj_get "correctness" props) as [v2|] eqn:G2; [|discriminate].
  destruct (zod_parse (metricSchema _) v2) as [v2'|] eqn:H2; [|discriminate].
  destruct (obj_get "grammar" props) as [v3|] eqn:G3; [|discriminate].
  destruct (zod_parse (metricSchema _) v3) as [v3'|] eqn:H3; [|discriminate].
  destruct (obj_get "completeness" props) as [v4|] eqn:G4; [|discriminate].
  destruct (zod_parse (metricSchema _) v4) as [v4'|] eqn:H4; [|discriminate].
  cbn. intros [= <-].
  apply metricSchema_reads in H1 as (q & r1 & s1 & -> & ? & ? & ->).
  apply metricSchema_reads in H2 as (c & r2 & s2 & -> & ? & ? & ->).
  apply metricSchema_reads in H3 as (g & r3 & s3 & -> & ? & ? & ->).
  apply metricSchema_reads in H4 as (m & r4 & s4 & -> & ? & ? & ->).
  exists props, q, c, g, m, r1, s1, r2, s2, r3, s3, r4, s4. done.
Qed.

(** C8.  When [judge] returns, the one file it has written is
    [./judgements/<id>.json] for the identifier it was given.  The document
    in it holds that identifier and the goal, model name, start time, end
    time and conversation of the run as they were, followed by the four
    metrics and nothing else; and the reasoning and the score of each
    metric are those of the answer the judge model gave to the attempt that
    succeeded. *)
Theorem judged_run_keeps_the_run id run w w' :
  judge id run 0 w = (Returned tt, w') ->
  exists n props q c g m r1 s1 r2 s2 r3 s3 r4 s4,
    n <= 11
    /\ model_object_at env (ticks w + n) (judge_request run)
       = Returned (JObject props)
    /\ (obj_get "quality" props = Some (JObject q)
        /\ obj_get "reasoning" q = Some (JString r1)
        /\ obj_get "score" q = Some (JNumber s1))
    /\ (obj_get "correctness" props = Some (JObject c)
        /\ obj_get "reasoning" c = Some (JString r2)
        /\ obj_get "score" c = Some (JNumber s2))
    /\ (obj_get "grammar" props = Some (JObject g)
        /\ obj_get "reasoning" g = Some (JString r3)
        /\ obj_get "score" g = Some (JNumber s3))
    /\ (obj_get "completeness" props = Some (JObject m)
        /\ obj_get "reasoning" m = Some (JString r4)
        /\ obj_get "score" m = Some (JNumber s4))
    /\ files w'
       = <["./judgements/" +:+ id +:+ ".json" :=
             JSON_stringify
               (JObject
                  [ ("id", JString id);
                    ("goal", JString (goal run));
                    ("modelName", JString (modelName run));
                    ("startTime", JNumber (inject_Z (startTime run)));
                    ("endTime", JNumber (inject_Z (endTime run)));
                    ("conversation",
                     JArray
                       (map (fun message0 =>
                               JObject
                                 [ ("from",
                                    JString match from message0 with
                                            | buyer => "buyer"
                                            | store => "store"
                                            end);
                                   ("message", JString (message message0)) ])
                            (conversation run)));
                    ("quality",
                     JObject [("reasoning", JString r1); ("score", JNumber s1)]);
                    ("correctness",
                     JObject [("reasoning", JString r2); ("score", JNumber s2)]);
                    ("grammar",
                     JObject [("reasoning", JString r3); ("score", JNumber s3)]);
                    ("completeness",
                     JObject [("reasoning", JString r4); ("score", JNumber s4)]) ])
               2]> (files w).
Proof.
  intros Hjudge.
  destruct (judge_cases id run w)
    as [(n & object & w0 & Hn & _ & Hok & Hj & Hfiles & _)
       |(e & w0 & _ & _ & Hj & _)]; [|congruence].
  rewrite Hjudge in Hj. injection Hj as <-.
  apply object_outcome_reads in Hok
    as (props & q & c & g & m & r1 & s1 & r2 & s2 & r3 & s3 & r4 & s4
        & Hraw & Hq & Hc & Hg & Hm & ->).
  exists n, props, q, c, g, m, r1, s1, r2, s2, r3, s3, r4, s4.
  split; [done|]. split; [done|]. split; [done|]. split; [done|].
  split; [done|]. split; [done|]. exact Hfiles.
Qed.

(** ** More on the judge: any starting iteration, other files, the schema *)

(** [judge] from any iteration: [S (11 - iteration)] attempts at most, one
    tick each. *)
Lemma judge_from id run n :
  forall iteration w,
    11 - iteration = n ->
    exists attempts r w',
      judge id run iteration w = (r, w')
      /\ 1 <= attempts <= S n
      /\ calls w' = calls w ++ replicate attempts (ObjectCall (judge_request run))
      /\ ticks w' = ticks w + attempts
      /\ match r with
         | Returned _ =>
             exists object,
               object_outcome (judge_request run) (ticks w + (attempts - 1))
               = Returned object
               /\ files w'
                  = <[judgements_path id := judgement_text id run object]> (files w)
         | Thrown e =>
             attempts = S n
             /\ object_outcome (judge_request run) (ticks w + n) = Thrown e
             /\ files w' = files w
         end.
Proof.
  induction n as [|n IH]; intros iteration w Hn;
    rewrite judge_step, judge_attempt_eq;
    destruct (object_outcome (judge_request run) (ticks w)) as [object|e] eqn:Hout.
  - exists 1, (Returned tt). eexists. split; [reflexivity|]. simpl.
    split; [lia|]. split; [done|]. split; [lia|].
    exists object. by rewrite Nat.add_0_r.
  - destruct (gt_dec iteration 10) as [_|Hle]; [|lia].
    exists 1, (Thrown e). eexists. split; [reflexivity|]. simpl.
    split; [lia|]. split; [done|]. split; [lia|].
    by rewrite Nat.add_0_r.
  - exists 1, (Returned tt). eexists. split; [reflexivity|]. simpl.
    split; [lia|]. split; [done|]. split; [lia|].
    exists object. by rewrite Nat.add_0_r.
  - destruct (gt_dec iteration 10) as [Hgt|_]; [lia|].
    edestruct (IH (S iteration)) as (attempts & r & w' & -> & Hb & Hcalls & Ht & Hr);
      [lia|].
    cbn [ticks calls files] in Hcalls, Ht, Hr.
    exists (S attempts), r, w'. split; [reflexivity|].
    split; [lia|]. split; [by rewrite Hcalls, <- app_assoc|]. split; [lia|].
    destruct r as [|e'].
    + destruct Hr as (object & Hobject & Hfiles). exists object.
      split; [|done]. rewrite <- Hobject. f_equal. lia.
    + destruct Hr as (-> & He' & Hfiles). split; [done|]. split; [|done].
      rewrite <- He'. f_equal. lia.
Qed.

(** X7.  [judge] started at iteration [k] makes at most [12 - k] attempts,
    and a single one from iteration 11 on: there a first failure is thrown
    at once.  The attempts are all the same request and take one tick
    each. *)
Theorem judge_budget_from_any_iteration id run iteration w :
  exists attempts r w',
    judge id run iteration w = (r, w')
    /\ 1 <= attempts <= S (11 - iteration)
    /\ (11 <= iteration -> attempts = 1)
    /\ calls w' = calls w ++ replicate attempts (ObjectCall (judge_request run))
    /\ ticks w' = ticks w + attempts.
Proof.
  destruct (judge_from id run (11 - iteration) iteration w eq_refl)
    as (attempts & r & w' & Hj & Hb & Hcalls & Ht & _).
  exists attempts, r, w'. split; [done|]. split; [done|].
  split; [lia|done].
Qed.

(** X8.  Whatever [judge] does, from any iteration, a file other than
    [./judgements/<id>.json] is as it was; and when [judge] throws, every
    file is. *)
Theorem judge_touches_only_its_file id run iteration w path :
  path <> judgements_path id ->
  files (snd (judge id run iteration w)) !! path = files w !! path
  /\ (forall e, fst (judge id run iteration w) = Thrown e ->
      files (snd (judge id run iteration w)) = files w).
Proof.
  intros Hpath.
  destruct (judge_from id run (11 - iteration) iteration w eq_refl)
    as (attempts & r & w' & -> & _ & _ & _ & Hr).
  simpl. destruct r as [|e].
  - destruct Hr as (object & _ & ->). split; [|done].
    by rewrite lookup_insert_ne.
  - destruct Hr as (_ & _ & ->). done.
Qed.

(** X9.  Judging under an identifier that was judged before replaces the
    earlier judgement.  After two calls that return, the files are those
    before the first call plus [./judgements/<id>.json], and the document in
    it is made of the second run and of what the schema keeps of the first
    answer it accepts among those given to the second call; of the first
    judgement nothing is left. *)
Theorem judging_again_replaces_the_judgement id run run' w w1 w2 :
  judge id run 0 w = (Returned tt, w1) ->
  judge id run' 0 w1 = (Returned tt, w2) ->
  exists n raw fields,
    n <= 11
    /\ (forall k answer,
          k < n ->
          model_object_at env (ticks w1 + k) (judge_request run') = Returned answer ->
          zod_parse judgerSchema answer = None)
    /\ model_object_at env (ticks w1 + n) (judge_request run') = Returned raw
    /\ zod_parse judgerSchema raw = Some (JObject fields)
    /\ files w2
       = <["./judgements/" +:+ id +:+ ".json" :=
             JSON_stringify
               (JObject
                  ([ ("id", JString id);
                     ("goal", JString (goal run'));
                     ("modelName", JString (modelName run'));
                     ("startTime", JNumber (inject_Z (startTime run')));
                     ("endTime", JNumber (inject_Z (endTime run')));
                     ("conversation",
                      JArray
                        (map (fun message0 =>
                                JObject
                                  [ ("from",
                                     JString match from message0 with
                                             | buyer => "buyer"
                                             | store => "store"
                                             end);
                                    ("message", JString (message message0)) ])
                             (conversation run'))) ]
                   ++ fields))
               2]> (files w)
    /\ dom (files w2) = {["./judgements/" +:+ id +:+ ".json"]} ∪ dom (files w).
Proof.
  intros H1 H2.
  destruct (judge_from id run 11 0 w eq_refl)
    as (a1 & r1 & w1' & Hj1 & _ & _ & _ & Hr1).
  rewrite H1 in Hj1. injection Hj1 as <- <-.
  destruct Hr1 as (object1 & _ & Hf1).
  destruct (judge_cases id run' w1)
    as [(n & object & w2' & Hn & Hfail & Hok & Hj & Hfiles & _)
       |(e & w2' & _ & _ & Hj & _)]; [|congruence].
  rewrite H2 in Hj. injection Hj as <-.
  pose proof (object_outcome_shape _ _ _ Hok)
    as (r1 & s1 & r2 & s2 & r3 & s3 & r4 & s4 & Hshape).
  unfold object_outcome in Hok.
  destruct (model_object_at env (ticks w1 + n) (judge_request run'))
    as [raw|] eqn:Hraw; [|discriminate].
  change (object_schema (judge_request run')) with judgerSchema in Hok.
  destruct (zod_parse judgerSchema raw) as [object'|] eqn:Hparse; [|discriminate].
  injection Hok as ->. subst object.
  eexists n, raw, _. split; [done|]. split.
  { intros k answer Hk Hanswer. destruct (Hfail k Hk) as [e He].
    unfold object_outcome in He. rewrite Hanswer in He.
    change (object_schema (judge_request run')) with judgerSchema in He.
    by destruct (zod_parse judgerSchema answer). }
  split; [done|]. split; [exact Hparse|].
  assert (Hfiles2 :
    files w2
    = <[judgements_path id :=
          judgement_text id run'
            (judgement (metric r1 s1) (metric r2 s2) (metric r3 s3) (metric r4 s4))]>
        (files w))
    by (by rewrite Hfiles, Hf1, insert_insert_eq).
  split; [exact Hfiles2|]. rewrite Hfiles2. apply dom_insert_L.
Qed.

(** What the schema needs of an answer, metric by metric. *)
Lemma judgerSchema_needs props object name :
  zod_parse judgerSchema (JObject props) = Some object ->
  name ∈ metric_names ->
  exists description v v',
    obj_get name props = Some v
    /\ zod_parse (metricSchema description) v = Some v'.
Proof.
  unfold metric_names. cbn -[metricSchema obj_get].
  destruct (obj_get "quality" props) as [v1|] eqn:G1; [|done].
  destruct (zod_parse (metricSchema _) v1) as [v1'|] eqn:H1; [|done].
  destruct (obj_get "correctness" props) as [v2|] eqn:G2; [|done].
  destruct (zod_parse (metricSchema _) v2) as [v2'|] eqn:H2; [|done].
  destruct (obj_get "grammar" props) as [v3|] eqn:G3; [|done].
  destruct (zod_parse (metricSchema _) v3) as [v3'|] eqn:H3; [|done].
  destruct (obj_get "completeness" props) as [v4|] eqn:G4; [|done].
  destruct (zod_parse (metricSchema _) v4) as [v4'|] eqn:H4; [|done].
  intros _ Hname.
  repeat (apply elem_of_cons in Hname as [->|Hname]); eauto.
  by apply elem_of_nil in Hname.
Qed.

(** X10.  An answer of the judge model that lacks one of the four metrics
    does not pass the schema: the attempt that got it fails, like a
    transport error, and is retried within the budget. *)
Theorem answer_without_a_metric_fails_the_attempt run t props name :
  name ∈ metric_names ->
  obj_get name props = None ->
  model_object_at env t (judge_request run) = Returned (JObject props) ->
  fails (judge_request run) t.
Proof.
  intros Hname Hmissing Hraw. unfold fails, object_outcome. rewrite Hraw.
  change (object_schema (judge_request run)) with judgerSchema.
  destruct (zod_parse judgerSchema (JObject props)) as [object|] eqn:Hparse;
    [|by eexists].
  destruct (judgerSchema_needs props object name Hparse Hname)
    as (description & v & v' & Hget & _).
  congruence.
Qed.

(** X11.  So does an answer in which the score of a metric is not a JSON
    number (a string, say) or its reasoning is not a string. *)
Theorem answer_with_a_mistyped_metric_fails_the_attempt
    run t props name fields :
  name ∈ metric_names ->
  obj_get name props = Some (JObject fields) ->
  (forall q, obj_get "score" fields <> Some (JNumber q))
  \/ (forall s, obj_get "reasoning" fields <> Some (JString s)) ->
  model_object_at env t (judge_request run) = Returned (JObject props) ->
  fails (judge_request run) t.
Proof.
  intros Hname Hmetric Hbad Hraw. unfold fails, object_outcome. rewrite Hraw.
  change (object_schema (judge_request run)) with judgerSchema.
  destruct (zod_parse judgerSchema (JObject props)) as [object|] eqn:Hparse;
    [|by eexists].
  destruct (judgerSchema_needs props object name Hparse Hname)
    as (description & v & v' & Hget & Hv).
  rewrite Hmetric in Hget. injection Hget as <-.
  exfalso. revert Hv. cbn.
  destruct (obj_get "reasoning" fields) as [[| | |reasoning| |]|] eqn:Hr;
    try done.
  destruct (obj_get "score" fields) as [[| |score| | |]|] eqn:Hs; try done.
  destruct Hbad as [Hbad|Hbad]; [by destruct (Hbad score)|].
  by destruct (Hbad reasoning).
Qed.

(** X12.  Properties that the schema does not name never reach the
    judgement: an answer with one more property, under any other key, is
    validated to the same object; and an object that passed the schema
    passes it again unchanged. *)
Theorem unknown_properties_are_stripped raw object key value props :
  key ∉ metric_names ->
  zod_parse judgerSchema (JObject ((key, value) :: props))
  = zod_parse judgerSchema (JObject props)
  /\ (zod_parse judgerSchema raw = Some object ->
      zod_parse judgerSchema object = Some object).
Proof.
  intros Hkey. split.
  - unfold metric_names in Hkey.
    assert (forall name, name ∈ metric_names ->
              obj_get name ((key, value) :: props) = obj_get name props) as Hget.
    { intros name Hname. simpl.
      destruct (String.eqb_spec name key) as [->|]; [done|done]. }
    cbn -[metricSchema obj_get].
    rewrite !Hget by (unfold metric_names; repeat constructor). done.
  - intros Hparse.
    apply judgerSchema_parse in Hparse
      as (r1 & s1 & r2 & s2 & r3 & s3 & r4 & s4 & ->).
    apply judgerSchema_accepts.
Qed.

End Run.

(** ** Two worlds compared *)

Lemma object_outcome_valid env request t raw object :
  model_object_at env t request = Returned raw ->
  zod_parse (object_schema request) raw = Some object ->
  object_outcome env request t = Returned object.
Proof. unfold object_outcome. by intros -> ->. Qed.

(** C9.  Let the first [N - 1] attempts fail and the [N]th get an answer
    that passes the schema, for some [N] from 1 to 12; and let, in another
    world, the first attempt get that same answer.  In both worlds [judge]
    returns, and the files are the same afterwards: the files there were
    before, with the one judgement written under the identifier. *)
Theorem retry_is_idempotent (env env' : Env) id run w N raw object :
  1 <= N <= 12 ->
  (forall k, k < N - 1 -> fails env (judge_request run) (ticks w + k)) ->
  model_object_at env (ticks w + (N - 1)) (judge_request run) = Returned raw ->
  model_object_at env' (ticks w) (judge_request run) = Returned raw ->
  zod_parse judgerSchema raw = Some object ->
  exists w1 w1',
    judge env id run 0 w = (Returned tt, w1)
    /\ judge env' id run 0 w = (Returned tt, w1')
    /\ files w1 = files w1'
    /\ files w1 = <[judgements_path id := judgement_text id run object]> (files w)
    /\ dom (files w1) = {[judgements_path id]} ∪ dom (files w).
Proof.
  intros HN Hfail Hraw Hraw' Hparse.
  destruct (judge_succeeds env id run object (N - 1) 0 w)
    as (w1 & Hj & Hfiles & _); [lia|done| |].
  { by apply (object_outcome_valid _ _ _ raw). }
  destruct (judge_succeeds env' id run object 0 0 w)
    as (w1' & Hj' & Hfiles' & _); [lia|intros k Hk; lia| |].
  { rewrite Nat.add_0_r. by apply (object_outcome_valid _ _ _ raw). }
  exists w1, w1'. split; [done|]. split; [done|].
  split; [congruence|]. split; [done|].
  rewrite Hfiles. apply dom_insert_L.
Qed.

End Pipeline.

(** * Text: [dedent] and the names of the files *)

(** ** Strings as lists of characters *)

Abbreviation chars := String.list_ascii_of_string.

Lemma chars_inj a b : chars a = chars b -> a = b.
Proof.
  intros H. rewrite <- (String.string_of_list_ascii_of_string a),
    <- (String.string_of_list_ascii_of_string b). by rewrite H.
Qed.

Lemma chars_app a b : chars (a +:+ b) = chars a ++ chars b.
Proof. induction a as [|c a IH]; simpl; [done|by rewrite IH]. Qed.

Lemma chars_rev_app s t : chars (String.rev_app s t) = rev (chars s) ++ chars t.
Proof.
  revert t. induction s as [|c s IH]; intros t; simpl; [done|].
  rewrite IH. simpl. by rewrite <- app_assoc.
Qed.

Lemma chars_rev s : chars (String.rev s) = rev (chars s).
Proof. unfold String.rev. by rewrite chars_rev_app, app_nil_r. Qed.

Lemma append_nil_r s : s +:+ EmptyString = s.
Proof. apply chars_inj. by rewrite chars_app, app_nil_r. Qed.

Lemma append_assoc a b c : (a +:+ b) +:+ c = a +:+ (b +:+ c).
Proof. apply chars_inj. by rewrite !chars_app, app_assoc. Qed.

Lemma rev_append a b : String.rev (a +:+ b) = String.rev b +:+ String.rev a.
Proof. apply chars_inj. by rewrite chars_app, !chars_rev, chars_app, rev_app_distr. Qed.

Lemma rev_cons c s : String.rev (String c s) = String.rev s +:+ String c EmptyString.
Proof. apply chars_inj. by rewrite chars_app, !chars_rev. Qed.

Lemma prefix_append a b : String.prefix a (a +:+ b) = true.
Proof.
  induction a as [|c a IH]; simpl; [by destruct b|].
  destruct (ascii_dec c c); [done|congruence].
Qed.

(** ** Splitting and joining *)

(** [c] occurs in [s]. *)
Fixpoint occurs (c : ascii) (s : string) : bool :=
  match s with
  | EmptyString => false
  | String c' s' => Ascii.eqb c' c || occurs c s'
  end.

Lemma split_go_nonempty separator cur s : split_go separator cur s <> [].
Proof.
  revert cur. induction s as [|c s IH]; intros cur; simpl; [done|].
  destruct (Ascii.eqb c separator); [done|apply IH].
Qed.

Lemma split_go_cur separator cur s :
  split_go separator cur s =
  match split s separator with
  | first :: rest => (String.rev cur +:+ first) :: rest
  | [] => []
  end.
Proof.
  unfold split. revert cur. induction s as [|c s IH]; intros cur; simpl.
  - by rewrite append_nil_r.
  - destruct (Ascii.eqb c separator); simpl.
    + by rewrite append_nil_r.
    + rewrite (IH (String c cur)), (IH (String c EmptyString)).
      destruct (split_go separator EmptyString s) as [|first rest]; [done|].
      by rewrite rev_cons, append_assoc.
Qed.

(** [split] by the first character of the text. *)
Lemma split_cons separator c s :
  split (String c s) separator =
  if Ascii.eqb c separator then EmptyString :: split s separator
  else match split s separator with
       | first :: rest => String c first :: rest
       | [] => []
       end.
Proof.
  unfold split at 1. simpl. destruct (Ascii.eqb c separator); [done|].
  rewrite split_go_cur. by destruct (split s separator).
Qed.

Lemma split_nonempty s separator : split s separator <> [].
Proof. apply split_go_nonempty. Qed.

Lemma split_parts_free s separator :
  Forall (fun part => occurs separator part = false) (split s separator).
Proof.
  induction s as [|c s IH]; [by repeat constructor|].
  rewrite split_cons. destruct (Ascii.eqb c separator) eqn:Hc.
  - by constructor.
  - destruct (split s separator) as [|first rest]; [done|].
    inversion IH as [|? ? Hfirst Hrest]; subst.
    constructor; [|done]. simpl. by rewrite Hc.
Qed.

Lemma concat_cons_char separator c first rest :
  String.concat separator (String c first :: rest)
  = String c (String.concat separator (first :: rest)).
Proof. by destruct rest. Qed.

Lemma split_free part separator :
  occurs separator part = false -> split part separator = [part].
Proof.
  induction part as [|c part IH]; [done|]. cbn [occurs].
  intros [Hc Hpart]%orb_false_iff. rewrite split_cons, Hc, IH by done. done.
Qed.

Lemma split_append part separator s :
  occurs separator part = false ->
  split (part +:+ String separator s) separator = part :: split s separator.
Proof.
  induction part as [|c part IH]; cbn [occurs].
  - intros _.
    change (EmptyString +:+ String separator s) with (String separator s).
    by rewrite split_cons, Ascii.eqb_refl.
  - intros [Hc Hpart]%orb_false_iff.
    change (String c part +:+ String separator s)
      with (String c (part +:+ String separator s)).
    by rewrite split_cons, Hc, IH.
Qed.

Lemma split_concat parts separator :
  parts <> [] ->
  Forall (fun part => occurs separator part = false) parts ->
  split (String.concat (String separator EmptyString) parts) separator = parts.
Proof.
  intros Hne Hfree. induction Hfree as [|part parts Hpart Hparts IH]; [done|].
  destruct parts as [|part' parts].
  - cbn [String.concat]. by apply split_free.
  - change (String.concat ?sep (part :: part' :: parts))
      with (part +:+ sep +:+ String.concat sep (part' :: parts)).
    change (String separator EmptyString +:+ ?rest)
      with (String separator rest).
    rewrite split_append by done. by rewrite IH.
Qed.

Lemma split_nl_go_split cur s : split_nl_go cur s = split_go "010"%char cur s.
Proof.
  revert cur. induction s as [|c s IH]; intros cur; simpl; [done|].
  by rewrite !IH.
Qed.

Lemma split_nl_split s : split_nl s = split s "010"%char.
Proof. apply split_nl_go_split. Qed.

Lemma join_split s separator :
  String.concat (String separator EmptyString) (split s separator) = s.
Proof.
  induction s as [|c s IH]; [done|].
  rewrite split_cons. pose proof (split_nonempty s separator) as Hne.
  destruct (Ascii.eqb_spec c separator) as [->|Hc];
    destruct (split s separator) as [|first rest]; try done.
  - change (String.concat ?sep (EmptyString :: first :: rest))
      with (String separator (String.concat sep (first :: rest))).
    by rewrite IH.
  - by rewrite concat_cons_char, IH.
Qed.

(** ** Trimming *)

Lemma length_append a b :
  String.length (a +:+ b) = String.length a + String.length b.
Proof. induction a as [|c a IH]; simpl; [done|by rewrite IH]. Qed.

Lemma rev_rev s : String.rev (String.rev s) = s.
Proof. apply chars_inj. by rewrite !chars_rev, rev_involutive. Qed.

Lemma prefix_inv a b : String.prefix a b = true -> exists r, b = a +:+ r.
Proof.
  revert b. induction a as [|c a IH]; intros b; [by exists b|].
  destruct b as [|c' b]; simpl; [done|].
  destruct (ascii_dec c c') as [<-|]; [|done].
  intros [r ->]%IH. by exists r.
Qed.

Lemma occurs_chars c s : occurs c s = existsb (fun c' => Ascii.eqb c' c) (chars s).
Proof. induction s as [|c' s IH]; simpl; [done|by rewrite IH]. Qed.

(** Made of the patterns, one after the other. *)
Inductive made_of (patterns : list string) : string -> Prop :=
| made_of_nothing : made_of patterns EmptyString
| made_of_more p s :
    In p patterns -> made_of patterns s -> made_of patterns (p +:+ s).

Lemma made_of_snoc patterns s p :
  made_of patterns s -> In p patterns -> made_of patterns (s +:+ p).
Proof.
  intros Hs Hp. induction Hs as [|q s Hq Hs IH].
  - change (EmptyString +:+ p) with p. rewrite <- (append_nil_r p).
    apply made_of_more; [done|apply made_of_nothing].
  - rewrite append_assoc. by apply made_of_more.
Qed.

Lemma made_of_rev patterns s :
  made_of (List.map String.rev patterns) s -> made_of patterns (String.rev s).
Proof.
  induction 1 as [|q s Hq Hs IH]; [apply made_of_nothing|].
  apply in_map_iff in Hq as (p & <- & Hp).
  rewrite rev_append, rev_rev. by apply made_of_snoc.
Qed.

Section Strip.

Variable patterns : list string.
Hypothesis patterns_nonempty : forall p, In p patterns -> p <> EmptyString.

Lemma strip_skip a r :
  strip_leading patterns (String.length a) (a +:+ r)
  = strip_leading patterns 0 r.
Proof. induction a as [|c a IH]; [done|]. exact IH. Qed.

(** Either [s] starts with no pattern and is left as it is, or it starts
    with one, and what follows that one is stripped. *)
Lemma strip_cases s :
  ((forall p, In p patterns -> String.prefix p s = false)
   /\ strip_leading patterns 0 s = s)
  \/ (exists p r,
        In p patterns /\ s = p +:+ r
        /\ strip_leading patterns 0 s = strip_leading patterns 0 r).
Proof.
  destruct s as [|c s].
  - left. split; [|done]. intros p Hp.
    destruct p as [|c p]; [by destruct (patterns_nonempty _ Hp)|done].
  - cbn [strip_leading]. unfold leading_width.
    destruct (List.find _ patterns) as [p|] eqn:Hfind.
    + apply List.find_some in Hfind as [Hp Hprefix].
      destruct (prefix_inv _ _ Hprefix) as [r Hr].
      destruct p as [|c' p]; [by destruct (patterns_nonempty _ Hp)|].
      injection Hr as -> ->. right. exists (String c' p), r.
      split; [done|]. split; [done|]. apply strip_skip.
    + left. split; [|done]. intros p Hp.
      by apply (List.find_none _ _ Hfind).
Qed.

Lemma strip_split s :
  exists pre, s = pre +:+ strip_leading patterns 0 s /\ made_of patterns pre.
Proof.
  remember (String.length s) as n eqn:Hn. revert s Hn.
  induction n as [n IH] using lt_wf_ind. intros s ->.
  destruct (strip_cases s) as [[_ ->]|(p & r & Hp & -> & ->)].
  - exists EmptyString. split; [done|apply made_of_nothing].
  - destruct (IH (String.length r)) with (s := r) as (pre & Hr & Hpre); [|done|].
    + rewrite length_append. destruct p; [by destruct (patterns_nonempty _ Hp)|].
      simpl. lia.
    + exists (p +:+ pre). split; [|by apply made_of_more].
      by rewrite append_assoc, <- Hr.
Qed.

Lemma strip_clean s p :
  In p patterns -> String.prefix p (strip_leading patterns 0 s) = false.
Proof.
  intros Hp. remember (String.length s) as n eqn:Hn. revert s Hn.
  induction n as [n IH] using lt_wf_ind. intros s ->.
  destruct (strip_cases s) as [[Hclean ->]|(q & r & Hq & -> & ->)].
  - by apply Hclean.
  - apply (IH (String.length r)); [|done].
    rewrite length_append. destruct q; [by destruct (patterns_nonempty _ Hq)|].
    simpl. lia.
Qed.

Lemma strip_fixed s :
  (forall p, In p patterns -> String.prefix p s = false) ->
  strip_leading patterns 0 s = s.
Proof.
  intros Hclean.
  destruct (strip_cases s) as [[_ ->]|(p & r & Hp & -> & _)]; [done|].
  specialize (Hclean p Hp). by rewrite prefix_append in Hclean.
Qed.

End Strip.

(** Made of white space only. *)
Definition blank (s : string) : Prop := made_of js_white_space s.

(** No white space at the start, none at the end. *)
Definition clean_start (s : string) : Prop :=
  forall p, In p js_white_space -> String.prefix p s = false.

Definition clean_end (s : string) : Prop :=
  forall p, In p js_white_space -> endsWith s p = false.

Lemma js_white_space_nonempty p : In p js_white_space -> p <> EmptyString.
Proof.
  intros Hp. vm_compute in Hp.
  repeat (destruct Hp as [<-|Hp]; [discriminate|]). done.
Qed.

Lemma reversed_nonempty p :
  In p (List.map String.rev js_white_space) -> p <> EmptyString.
Proof.
  intros (q & <- & Hq)%in_map_iff Hrev.
  apply (js_white_space_nonempty q Hq).
  by rewrite <- (rev_rev q), Hrev.
Qed.

(** [trim] takes white space away, at the two ends, and all of it there. *)
Lemma trim_spec s :
  (exists pre post, s = pre +:+ trim s +:+ post /\ blank pre /\ blank post)
  /\ clean_start (trim s)
  /\ clean_end (trim s).
Proof.
  unfold trim, trim_end, trim_start.
  destruct (strip_split js_white_space js_white_space_nonempty s)
    as (pre & Hs & Hpre).
  set (u := strip_leading js_white_space 0 s) in *.
  destruct (strip_split _ reversed_nonempty (String.rev u)) as (pre' & Hu & Hpre').
  set (v := strip_leading (List.map String.rev js_white_space) 0 (String.rev u))
    in *.
  assert (u = String.rev v +:+ String.rev pre') as Hu'.
  { by rewrite <- rev_append, <- Hu, rev_rev. }
  split; [|split].
  - exists pre, (String.rev pre'). split; [by rewrite <- Hu'|].
    split; [done|]. by apply made_of_rev.
  - intros p Hp. destruct (String.prefix p (String.rev v)) eqn:Hprefix; [|done].
    apply prefix_inv in Hprefix as [r Hr].
    pose proof (strip_clean js_white_space js_white_space_nonempty s p Hp) as Hclean.
    fold u in Hclean. by rewrite Hu', Hr, append_assoc, prefix_append in Hclean.
  - intros p Hp. unfold endsWith. rewrite rev_rev.
    apply (strip_clean _ reversed_nonempty). by apply in_map.
Qed.

Lemma trim_fixed s : clean_start s -> clean_end s -> trim s = s.
Proof.
  intros Hs He. unfold trim, trim_end, trim_start.
  rewrite (strip_fixed js_white_space js_white_space_nonempty s Hs).
  rewrite (strip_fixed _ reversed_nonempty); [apply rev_rev|].
  intros p (q & <- & Hq)%in_map_iff. by apply He.
Qed.

Lemma trim_idempotent s : trim (trim s) = trim s.
Proof. destruct (trim_spec s) as (_ & Hs & He). by apply trim_fixed. Qed.

Lemma trim_occurs c s : occurs c s = false -> occurs c (trim s) = false.
Proof.
  destruct (trim_spec s) as ((pre & post & Hs & _) & _).
  rewrite Hs at 1. rewrite !occurs_chars, !chars_app, !existsb_app.
  intros H. apply orb_false_iff in H as [_ H]. by apply orb_false_iff in H as [H _].
Qed.

Lemma split_nl_dedent text : split_nl (dedent text) = map trim (split_nl text).
Proof.
  unfold dedent, join_nl, nl. rewrite !split_nl_split. apply split_concat.
  - pose proof (split_nonempty text "010"%char). by destruct (split text _).
  - apply Forall_fmap. eapply Forall_impl; [apply split_parts_free|].
    intros part. apply trim_occurs.
Qed.

(** ** [dedent] (index.ts, lines 108-113) *)

(** X13.  [dedent] keeps the lines of a text, as many and in order, and
    takes from each line the white space at its two ends, all of it and
    nothing else. *)
Theorem dedent_trims_every_line text :
  length (split_nl (dedent text)) = length (split_nl text)
  /\ Forall2
       (fun line out =>
          (exists pre post, line = pre +:+ out +:+ post /\ blank pre /\ blank post)
          /\ clean_start out
          /\ clean_end out)
       (split_nl text) (split_nl (dedent text)).
Proof.
  rewrite split_nl_dedent. split; [by rewrite length_map|].
  apply Forall2_fmap_r, Forall_Forall2_diag, Forall_forall.
  intros line _. apply trim_spec.
Qed.

(** X14.  [dedent] is idempotent. *)
Theorem dedent_is_idempotent text : dedent (dedent text) = dedent text.
Proof.
  unfold dedent at 1. rewrite split_nl_dedent. unfold dedent. f_equal.
  rewrite <- list_fmap_compose. apply list_fmap_ext.
  intros _ line _. apply trim_idempotent.
Qed.

(** X15.  A text none of whose lines starts or ends with white space comes
    out of [dedent] as it went in. *)
Theorem dedent_keeps_a_clean_text text :
  Forall (fun line => clean_start line /\ clean_end line) (split_nl text) ->
  dedent text = text.
Proof.
  intros Hclean. unfold dedent, join_nl, nl.
  rewrite <- (join_split text "010"%char) at 2. rewrite split_nl_split in *.
  f_equal. rewrite <- (list_fmap_id (split text "010"%char)) at 2.
  apply Forall_fmap_ext_1. eapply Forall_impl; [exact Hclean|].
  intros line [Hs He]. by apply trim_fixed.
Qed.

(** ** The names of the files ([judgeAll], judger.ts, lines 150-162) *)

Lemma endsWith_spec s suffix :
  endsWith s suffix = true <-> exists r, s = r +:+ suffix.
Proof.
  unfold endsWith. split.
  - intros [r Hr]%prefix_inv. exists (String.rev r).
    by rewrite <- (rev_rev s), Hr, rev_append, rev_rev.
  - intros [r ->]. rewrite rev_append. apply prefix_append.
Qed.

Lemma endsWith_json_has_a_dot file :
  endsWith file ".json" = true -> occurs "."%char file = true.
Proof.
  intros [r ->]%endsWith_spec.
  rewrite occurs_chars, chars_app, existsb_app. apply orb_true_iff. by right.
Qed.

(** The identifier is what stands before the first dot. *)
Lemma judged_id_first_component id rest :
  id <> EmptyString ->
  occurs "."%char id = false ->
  endsWith (id +:+ "." +:+ rest) ".json" = true ->
  judged_id (id +:+ "." +:+ rest) = Some id.
Proof.
  intros Hid Hdot Hjson. unfold judged_id. rewrite Hjson.
  change (id +:+ "." +:+ rest) with (id +:+ String "."%char rest).
  rewrite split_append by done.
  by destruct (String.eqb_spec id EmptyString).
Qed.

(** X17.  An entry is judged only if its name ends with [.json] and has
    something before its first dot; the identifier is then that first part,
    never empty and without a dot. *)
Theorem judged_id_is_the_first_component file id :
  judged_id file = Some id ->
  id <> EmptyString
  /\ occurs "."%char id = false
  /\ endsWith file ".json" = true
  /\ exists rest, file = id +:+ "." +:+ rest.
Proof.
  unfold judged_id. destruct (endsWith file ".json") eqn:Hjson; [|done].
  pose proof (split_parts_free file "."%char) as Hfree.
  pose proof (join_split file "."%char) as Hjoin.
  destruct (split file "."%char) as [|first parts]; [done|].
  destruct (String.eqb_spec first EmptyString) as [|Hne]; [done|].
  intros [= <-]. apply Forall_cons in Hfree as [Hfirst _].
  split; [done|]. split; [done|]. split; [done|].
  destruct parts as [|part parts].
  - simpl in Hjoin. rewrite <- Hjoin in Hjson.
    apply endsWith_json_has_a_dot in Hjson. congruence.
  - exists (String.concat "." (part :: parts)). by rewrite <- Hjoin.
Qed.

(** X18.  Only the part of a name before its first dot counts: entries that
    agree on it are judged under the same identifier, whatever stands
    between that dot and [.json]. *)
Theorem entries_with_one_first_component_share_an_id id middle :
  id <> EmptyString ->
  occurs "."%char id = false ->
  judged_id (id +:+ "." +:+ middle +:+ ".json") = Some id
  /\ judged_id (id +:+ ".json") = Some id.
Proof.
  intros Hid Hdot. split.
  - apply (judged_id_first_component id (middle +:+ ".json")); [done|done|].
    apply endsWith_spec. exists (id +:+ "." +:+ middle).
    by rewrite !append_assoc.
  - apply (judged_id_first_component id "json"); [done|done|].
    apply endsWith_spec. by exists id.
Qed.

(** ** More on the prompt builders *)

Definition swap_roles (mm : ModelMessage) : ModelMessage :=
  {| role := match role mm with
             | assistant => user
             | user => assistant
             | system => system
             end;
     content := content mm |}.

(** X19.  The two builders replay the same texts in the same order, with
    the roles [assistant] and [user] exchanged. *)
Theorem builders_replay_with_opposite_roles
    (conversation : list ConversationMesage) (goal lang store_goal : string) :
  history_for_store conversation store_goal
  = map swap_roles (history_for_user conversation goal lang)
  /\ map content (history_for_store conversation store_goal)
     = map message (List.filter has_text conversation).
Proof.
  unfold history_for_store, history_for_user, conversationForStore,
    conversationForUser; cbn [drop]. rewrite !drop_0.
  rewrite !List.map_map. split.
  - apply List.map_ext. by intros [[] text].
  - done.
Qed.

(** X20.  A prompt starts with the fixed messages (two for the buyer, one
    for the store), has one more message for each message with text, and
    only grows at its end when the conversation does. *)
Theorem prompts_grow_with_the_conversation
    (conversation more : list ConversationMesage) (goal lang store_goal : string) :
  length (conversationForUser conversation goal lang)
  = 2 + length (List.filter has_text conversation)
  /\ length (conversationForStore conversation store_goal)
     = 1 + length (List.filter has_text conversation)
  /\ conversationForUser conversation goal lang
     `prefix_of` conversationForUser (conversation ++ more) goal lang
  /\ conversationForStore conversation store_goal
     `prefix_of` conversationForStore (conversation ++ more) store_goal.
Proof.
  unfold conversationForUser, conversationForStore.
  rewrite filter_has_text_app, !List.map_app. simpl. rewrite !length_map.
  split; [done|]. split; [done|].
  split; eexists; rewrite ?app_comm_cons; reflexivity.
Qed.

(** * A concrete outside world

    Handles are provider model names; the rendering below stands for
    [JSON.stringify] (compact, without escapes); identifiers and times are
    counted from the tick. *)

Module Demo.

Definition Handle : Type := string.

Definition handle_toJSON (h : Handle) : Json := JObject [("modelId", JString h)].

Fixpoint render (value : Json) : string :=
  match value with
  | JNull => "null"
  | JBool b => if b then "true" else "false"
  | JNumber q => pretty (Qnum q) +:+ "/" +:+ pretty (Zpos (Qden q))
  | JString s => dq +:+ s +:+ dq
  | JArray items => "[" +:+ String.concat "," (List.map render items) +:+ "]"
  | JObject props =>
      "{" +:+ String.concat ","
                (List.map (fun kv => let (k, v) := kv : string * Json in
                                     dq +:+ k +:+ dq +:+ ":" +:+ render v)
                          props)
      +:+ "}"
  end.

Definition stringify (value : Json) (space : nat) : string := render value.

Definition store_document : string := "# Mountain Peak Outdoor Supply".
Definition rubric : string := "Provide scores between 0.00 and 1.00".
Definition judger : Handle := "claude-sonnet-4-5-20250929".
Definition gpt : Handle := "gpt-4o".
Definition goal0 : string := "Your goal is to find out the opening times".

Definition w0 : World Handle :=
  {| ticks := 0; files := ∅; console := []; calls := [] |}.

Definition clock (t : nat) : Z := 1700000000000 + Z.of_nat t.
Definition fresh_id (t : nat) : string := "run" +:+ pretty t.

(** The provider is down: every model call throws. *)
Definition env_down : Env Handle :=
  {| nanoid_at := fresh_id; Date_now_at := clock;
     model_text_at := fun _ _ => Thrown "overloaded";
     model_object_at := fun _ _ => Thrown "overloaded" |}.

(** The buyer asks, the store answers, the buyer reports completion. *)
Definition env_scenario : Env Handle :=
  {| nanoid_at := fresh_id; Date_now_at := clock;
     model_text_at := fun t _ =>
       match t with
       | 2 => Returned {| text := "On sou?"; staticToolResults := [] |}
       | 3 => Returned {| text := "1234 Summit Road, Boulder";
                          staticToolResults := [] |}
       | 4 => Returned
                {| text := EmptyString;
                   staticToolResults :=
                     [ {| toolName := "finishedGoal"; finished := true;
                          information := "1234 Summit Road, Boulder" |} ] |}
       | _ => Thrown "unexpected call"
       end;
     model_object_at := fun _ _ => Thrown "overloaded" |}.

(** Both personas answer with an empty text, always. *)
Definition env_mute : Env Handle :=
  {| nanoid_at := fresh_id; Date_now_at := clock;
     model_text_at := fun _ _ =>
       Returned {| text := EmptyString; staticToolResults := [] |};
     model_object_at := fun _ _ => Thrown "overloaded" |}.

Definition fair_judgement : Json :=
  judgement (metric "Direct and focused." (9 # 10))
            (metric "All facts match the store document." 1)
            (metric "Proper Catalan throughout." (95 # 100))
            (metric "Resolved, no explicit confirmation." (8 # 10)).

(** Empty reasonings and a score of 42. *)
Definition blank_judgement : Json :=
  judgement (metric EmptyString 42) (metric EmptyString 42)
            (metric EmptyString 42) (metric EmptyString 42).

(** The judge model answers from tick [first] on. *)
Definition env_judge (first : nat) (answer : Json) : Env Handle :=
  {| nanoid_at := fresh_id; Date_now_at := clock;
     model_text_at := fun _ _ => Thrown "overloaded";
     model_object_at := fun t _ =>
       if (t <? first)%nat then Thrown "overloaded" else Returned answer |}.

Definition run0 : ExportedConversation :=
  {| goal := goal0; modelName := "openaiGpt4o";
     model := handle_toJSON gpt;
     conversation :=
       [ {| from := buyer; message := "Quin horari teniu?" |};
         {| from := store; message := "Obrim de 9 a 20." |} ];
     startTime := 1700000000001; endTime := 1700000009000 |}.

(** The judge model gives one answer at tick 0 and another one afterwards. *)
Definition env_judge_twice (first later : Json) : Env Handle :=
  {| nanoid_at := fresh_id; Date_now_at := clock;
     model_text_at := fun _ _ => Thrown "overloaded";
     model_object_at := fun t _ =>
       match t with
       | 0 => Returned first
       | _ => Returned later
       end |}.

(** What a later run of the simulator may have left under the name of
    [run0]. *)
Definition run0_again : ExportedConversation :=
  {| goal := goal0; modelName := "anthropicSonnet45";
     model := handle_toJSON judger;
     conversation := [ {| from := buyer; message := "Bon dia!" |} ];
     startTime := 1700000010000; endTime := 1700000012000 |}.

Definition request0 : ObjectRequest Handle :=
  judge_request Handle stringify rubric judger run0.

(** The state of the scenario when its second turn begins. *)
Definition at_second_turn : RunState Handle :=
  {| run_world := {| ticks := 4; files := ∅; console := []; calls := [] |};
     run_conversation :=
       [ {| from := buyer; message := "On sou?" |};
         {| from := store; message := "1234 Summit Road, Boulder" |} ] |}.


(** The buyer reports completion at once. *)
Definition env_finish_first : Env Handle :=
  {| nanoid_at := fresh_id; Date_now_at := clock;
     model_text_at := fun _ _ =>
       Returned
         {| text := EmptyString;
            staticToolResults :=
              [ {| toolName := "finishedGoal"; finished := false;
                   information := "The goal cannot be completed because..." |} ] |};
     model_object_at := fun _ _ => Thrown "overloaded" |}.

(** A world in which the simulator has written one run. *)
Definition w_results : World Handle :=
  {| ticks := 0; files := {[ "./results/run0.json" := "{}" ]};
     console := []; calls := [] |}.

(** An answer without grammar and completeness. *)
Definition half_judgement : Json :=
  JObject [ ("quality", metric "Direct." (9 # 10));
            ("correctness", metric "Accurate." 1) ].

(** An answer whose quality score is a string. *)
Definition quoted_score_fields : Props :=
  [ ("reasoning", JString "Direct."); ("score", JString "0.9") ].

Definition quoted_score_judgement : Json :=
  judgement (JObject quoted_score_fields) (metric "Accurate." 1)
            (metric "Proper Catalan." 1) (metric "Resolved." 1).

Definition clean_text : string := "Bon dia" +:+ nl +:+ nl +:+ "Adeu".

End Demo.

(** * The theorems at concrete inputs *)

Import Demo.

(** The buyer's instructions name the turn limit. *)
Example buyerInstructions_names_the_limit :
  split_nl (buyerInstructions goal0 language) !! 10%nat
  = Some "There conversation will automatically cut off after 10 messages.".
Proof. vm_compute. reflexivity. Qed.

(** The scenario of the specification: the conversation has two messages
    and the loop stops at the second turn. *)
Example scenario_has_two_messages :
  result_conversation Handle <$>
    (match runCase Handle handle_toJSON stringify store_document env_scenario
             goal0 "openaiGpt4o" gpt w0 with
     | (Returned res, _) => Some res
     | _ => None
     end)
  = Some [ {| from := buyer; message := "On sou?" |};
           {| from := store; message := "1234 Summit Road, Boulder" |} ].
Proof. vm_compute. reflexivity. Qed.

(** C1 fails as stated: with the provider down the first model call throws,
    and the run still leaves a new file in [./results]. *)
Lemma failed_run_changes_the_store :
  (exists e st,
     try_block Handle store_document env_down goal0 "openaiGpt4o" gpt
       (at_try Handle goal0 "openaiGpt4o" w0) = (Thrown e, st))
  /\ files Handle w0 !! "./results/run0.json" = None
  /\ is_Some
       (files Handle
          (snd (runCase Handle handle_toJSON stringify store_document env_down
                  goal0 "openaiGpt4o" gpt w0))
        !! "./results/run0.json")
  /\ files Handle
       (snd (runCase Handle handle_toJSON stringify store_document env_down
               goal0 "openaiGpt4o" gpt w0))
     <> files Handle w0.
Proof.
  split; [eexists _, _; vm_compute; reflexivity|].
  split; [reflexivity|].
  split; [vm_compute; eexists; reflexivity|].
  intros H. apply (f_equal (fun m => m !! "./results/run0.json")) in H.
  vm_compute in H. discriminate.
Qed.

Lemma failed_run_is_persisted_witness :
  exists e st,
    try_block Handle store_document env_down goal0 "openaiGpt4o" gpt
      (at_try Handle goal0 "openaiGpt4o" w0) = (Thrown e, st)
    /\ exists res w',
         runCase Handle handle_toJSON stringify store_document env_down
           goal0 "openaiGpt4o" gpt w0 = (Returned res, w')
         /\ result_conversation Handle res = run_conversation Handle st
         /\ files Handle w'
            = <[results_path (fresh_id 0) :=
                  stringify
                    (run_record Handle handle_toJSON goal0 "openaiGpt4o" gpt
                       (run_conversation Handle st)
                       (result_startTime Handle res)
                       (result_endTime Handle res)) 2]> (files Handle w0).
Proof.
  eexists _, _. split; [vm_compute; reflexivity|].
  destruct (failed_run_is_persisted Handle handle_toJSON stringify
              store_document env_down goal0 "openaiGpt4o" gpt w0 _ _ eq_refl)
    as (res & w' & Hrun & _ & Hconv & _ & Hfiles).
  exists res, w'. split; [exact Hrun|]. split; [exact Hconv|exact Hfiles].
Defined.

(** C2 fails as stated: when eleven attempts have failed, [judge] does not
    give up; it makes a twelfth, and here that one succeeds and its
    judgement is written. *)
Lemma judge_makes_a_twelfth_attempt :
  (forall k, k < 11 -> fails Handle (env_judge 11 fair_judgement) request0 (ticks Handle w0 + k))
  /\ fst (judge Handle stringify rubric judger (env_judge 11 fair_judgement)
            "run0" run0 0 w0) = Returned tt
  /\ calls Handle
       (snd (judge Handle stringify rubric judger (env_judge 11 fair_judgement)
               "run0" run0 0 w0))
     = replicate 12 (ObjectCall Handle request0)
  /\ files Handle
       (snd (judge Handle stringify rubric judger (env_judge 11 fair_judgement)
               "run0" run0 0 w0))
     = {[ judgements_path "run0" := judgement_text stringify "run0" run0 fair_judgement ]}.
Proof.
  split.
  { intros k Hk. do 11 (destruct k as [|k]; [by eexists|]). lia. }
  split; [vm_compute; reflexivity|].
  split; vm_compute; reflexivity.
Qed.

Lemma finishedGoal_ends_the_loop_witness :
  exists r st',
    model_text_at Handle env_scenario
      (ticks Handle (run_world Handle at_second_turn))
      (buyer_request Handle goal0 gpt (run_conversation Handle at_second_turn))
    = Returned r
    /\ called_finishedGoal (staticToolResults r) = true
    /\ for_loop 9 1 (turn Handle store_document env_scenario goal0 "m" gpt)
         at_second_turn
       = (Returned tt, st')
    /\ run_conversation Handle st' = run_conversation Handle at_second_turn.
Proof.
  eexists.
  destruct (finishedGoal_ends_the_loop Handle store_document env_scenario
              goal0 "m" gpt 8 1 at_second_turn _ eq_refl eq_refl)
    as (st' & Hloop & Hconv & _).
  exists st'. split; [reflexivity|]. split; [reflexivity|].
  split; [exact Hloop|exact Hconv].
Defined.

(** C5 fails as stated: the schema lets through a judgement whose
    reasonings are empty and whose scores are 42, outside both scales. *)
Lemma blank_judgement_is_accepted :
  fst (generateObject Handle (env_judge 0 blank_judgement) request0 w0)
  = Returned blank_judgement
  /\ ~ documented_judgement blank_judgement
  /\ ~ in_rubric_scale 42 /\ ~ in_schema_scale 42.
Proof.
  split; [vm_compute; reflexivity|]. split; [|split].
  - intros (q & c & g & m & Heq & (reasoning & score & Hq & Hne & _) & _).
    injection Heq as <- _ _ _. injection Hq as <- _. by apply Hne.
  - intros [_ H]. vm_compute in H. by apply H.
  - intros [_ H]. vm_compute in H. by apply H.
Qed.

Lemma judge_result_has_four_metrics_witness :
  exists object w',
    generateObject Handle (env_judge 0 fair_judgement) request0 w0
    = (Returned object, w')
    /\ obj_keys (own_props object) = metric_names.
Proof.
  eexists _, _. split; [vm_compute; reflexivity|].
  exact (proj1 (judge_result_has_four_metrics Handle stringify rubric judger
                  (env_judge 0 fair_judgement) run0 w0 _ _ eq_refl)).
Defined.

Lemma judged_run_keeps_the_run_witness :
  exists w',
    judge Handle stringify rubric judger (env_judge 0 fair_judgement)
      "run0" run0 0 w0 = (Returned tt, w')
    /\ files Handle w'
       = {[ "./judgements/run0.json" :=
              stringify
                (JObject
                   [ ("id", JString "run0");
                     ("goal", JString goal0);
                     ("modelName", JString "openaiGpt4o");
                     ("startTime", JNumber (inject_Z 1700000000001));
                     ("endTime", JNumber (inject_Z 1700000009000));
                     ("conversation",
                      JArray
                        [ JObject [ ("from", JString "buyer");
                                    ("message", JString "Quin horari teniu?") ];
                          JObject [ ("from", JString "store");
                                    ("message", JString "Obrim de 9 a 20.") ] ]);
                     ("quality",
                      JObject [ ("reasoning", JString "Direct and focused.");
                                ("score", JNumber (9 # 10)) ]);
                     ("correctness",
                      JObject [ ("reasoning",
                                 JString "All facts match the store document.");
                                ("score", JNumber 1) ]);
                     ("grammar",
                      JObject [ ("reasoning", JString "Proper Catalan throughout.");
                                ("score", JNumber (95 # 100)) ]);
                     ("completeness",
                      JObject [ ("reasoning",
                                 JString "Resolved, no explicit confirmation.");
                                ("score", JNumber (8 # 10)) ]) ]) 2 ]}.
Proof.
  eexists. split; [vm_compute; reflexivity|].
  edestruct (judged_run_keeps_the_run Handle stringify rubric judger
               (env_judge 0 fair_judgement) "run0" run0 w0)
    as (n & props & q & c & g & m & r1 & s1 & r2 & s2 & r3 & s3 & r4 & s4
        & _ & Hraw & Hq & Hc & Hg & Hm & Hfiles);
    [vm_compute; reflexivity|].
  injection Hraw as <-.
  destruct Hq as (Hq & Hr1 & Hs1). injection Hq as <-.
  injection Hr1 as <-. injection Hs1 as <-.
  destruct Hc as (Hc & Hr2 & Hs2). injection Hc as <-.
  injection Hr2 as <-. injection Hs2 as <-.
  destruct Hg as (Hg & Hr3 & Hs3). injection Hg as <-.
  injection Hr3 as <-. injection Hs3 as <-.
  destruct Hm as (Hm & Hr4 & Hs4). injection Hm as <-.
  injection Hr4 as <-. injection Hs4 as <-.
  rewrite Hfiles. reflexivity.
Defined.

Lemma retry_is_idempotent_witness :
  (forall k, k < 3 - 1 ->
     fails Handle (env_judge 2 fair_judgement) request0 (ticks Handle w0 + k))
  /\ exists w1 w1',
       judge Handle stringify rubric judger (env_judge 2 fair_judgement)
         "run0" run0 0 w0 = (Returned tt, w1)
       /\ judge Handle stringify rubric judger (env_judge 0 fair_judgement)
            "run0" run0 0 w0 = (Returned tt, w1')
       /\ files Handle w1 = files Handle w1'.
Proof.
  assert (Hfail : forall k, k < 3 - 1 ->
            fails Handle (env_judge 2 fair_judgement) request0
              (ticks Handle w0 + k)).
  { intros k Hk. do 2 (destruct k as [|k]; [by eexists|]). simpl in Hk. lia. }
  split; [exact Hfail|].
  assert (HN : 1 <= 3 <= 12) by lia.
  destruct (retry_is_idempotent Handle stringify rubric judger
              (env_judge 2 fair_judgement) (env_judge 0 fair_judgement)
              "run0" run0 w0 3 fair_judgement fair_judgement
              HN Hfail eq_refl eq_refl eq_refl)
    as (w1 & w1' & H1 & H2 & H3 & _).
  exists w1, w1'. split; [exact H1|]. split; [exact H2|exact H3].
Defined.

Lemma empty_text_is_persisted_witness :
  exists res w',
    runCase Handle handle_toJSON stringify store_document env_mute
      goal0 "openaiGpt4o" gpt w0 = (Returned res, w')
    /\ calls Handle w' !! 1
       = Some (TextCall Handle
                 {| text_model := gpt;
                    text_messages :=
                      [ {| role := system; content := store_document |} ];
                    text_tools := [] |})
    /\ result_conversation Handle res !! 1
       = Some {| from := store; message := EmptyString |}
    /\ length (result_conversation Handle res) = 20.
Proof.
  edestruct (empty_text_is_persisted Handle handle_toJSON stringify
               store_document env_mute goal0 "openaiGpt4o" gpt w0 1)
    as (res & w' & Hrun & Hmessage & _);
    [vm_compute; reflexivity|reflexivity|discriminate|reflexivity|].
  exists res, w'. split; [exact Hrun|].
  assert (Hres : runCase Handle handle_toJSON stringify store_document
                   env_mute goal0 "openaiGpt4o" gpt w0 = (Returned res, w'))
    by exact Hrun.
  vm_compute in Hres. injection Hres as <- <-.
  split; [reflexivity|]. split; [exact Hmessage|reflexivity].
Defined.

(** ** The further properties at concrete inputs *)

Lemma end_time_is_not_before_start_time_witness :
  exists res w',
    runCase Handle handle_toJSON stringify store_document env_scenario
      goal0 "openaiGpt4o" gpt w0 = (Returned res, w')
    /\ (result_startTime Handle res <= result_endTime Handle res)%Z.
Proof.
  apply end_time_is_not_before_start_time.
  intros t t' Ht. unfold env_scenario, clock. simpl. lia.
Defined.



Lemma finishing_at_once_persists_an_empty_conversation_witness :
  exists res w',
    runCase Handle handle_toJSON stringify store_document env_finish_first
      goal0 "openaiGpt4o" gpt w0 = (Returned res, w')
    /\ result_conversation Handle res = []
    /\ length (calls Handle w') = 1.
Proof.
  destruct (finishing_at_once_persists_an_empty_conversation Handle
              handle_toJSON stringify store_document env_finish_first goal0
              "openaiGpt4o" gpt w0 _ eq_refl eq_refl)
    as (res & w' & Hrun & Hconv & Hcalls & _).
  exists res, w'. split; [exact Hrun|]. split; [exact Hconv|].
  rewrite Hcalls. reflexivity.
Defined.

Lemma judge_touches_only_its_file_witness :
  "./results/run0.json" <> judgements_path "run0"
  /\ files Handle
       (snd (judge Handle stringify rubric judger (env_judge 0 fair_judgement)
               "run0" run0 0 w_results))
     !! "./results/run0.json"
     = Some "{}".
Proof.
  assert (H : "./results/run0.json" <> judgements_path "run0")
    by (intros H; vm_compute in H; discriminate).
  split; [exact H|].
  rewrite (proj1 (judge_touches_only_its_file Handle stringify rubric judger
                    (env_judge 0 fair_judgement) "run0" run0 0 w_results
                    "./results/run0.json" H)).
  reflexivity.
Defined.

Lemma judging_again_replaces_the_judgement_witness :
  exists w1 w2,
    judge Handle stringify rubric judger
      (env_judge_twice fair_judgement blank_judgement) "run0" run0 0 w0
    = (Returned tt, w1)
    /\ judge Handle stringify rubric judger
         (env_judge_twice fair_judgement blank_judgement) "run0" run0_again 0 w1
       = (Returned tt, w2)
    /\ files Handle w1
       = {[ "./judgements/run0.json" :=
              stringify (judgement_record "run0" run0 fair_judgement) 2 ]}
    /\ files Handle w2
       = {[ "./judgements/run0.json" :=
              stringify
                (JObject
                   [ ("id", JString "run0");
                     ("goal", JString goal0);
                     ("modelName", JString "anthropicSonnet45");
                     ("startTime", JNumber (inject_Z 1700000010000));
                     ("endTime", JNumber (inject_Z 1700000012000));
                     ("conversation",
                      JArray
                        [ JObject [ ("from", JString "buyer");
                                    ("message", JString "Bon dia!") ] ]);
                     ("quality",
                      JObject [ ("reasoning", JString EmptyString);
                                ("score", JNumber 42) ]);
                     ("correctness",
                      JObject [ ("reasoning", JString EmptyString);
                                ("score", JNumber 42) ]);
                     ("grammar",
                      JObject [ ("reasoning", JString EmptyString);
                                ("score", JNumber 42) ]);
                     ("completeness",
                      JObject [ ("reasoning", JString EmptyString);
                                ("score", JNumber 42) ]) ]) 2 ]}.
Proof.
  eexists _, _.
  split; [vm_compute; reflexivity|]. split; [vm_compute; reflexivity|].
  split; [reflexivity|].
  edestruct (judging_again_replaces_the_judgement Handle stringify rubric
               judger (env_judge_twice fair_judgement blank_judgement)
               "run0" run0 run0_again w0)
    as (n & raw & fields & _ & _ & Hraw & Hfields & Hfiles & _);
    [vm_compute; reflexivity|vm_compute; reflexivity|].
  destruct n; injection Hraw as <-; injection Hfields as <-;
    rewrite Hfiles; reflexivity.
Defined.

Lemma answer_without_a_metric_fails_the_attempt_witness :
  obj_get "grammar" (own_props half_judgement) = None
  /\ fails Handle (env_judge 0 half_judgement) request0 0.
Proof.
  split; [reflexivity|].
  apply (answer_without_a_metric_fails_the_attempt Handle stringify rubric
           judger (env_judge 0 half_judgement) run0 0
           (own_props half_judgement) "grammar");
    [repeat constructor|reflexivity|reflexivity].
Defined.

Lemma answer_with_a_mistyped_metric_fails_the_attempt_witness :
  obj_get "score" quoted_score_fields = Some (JString "0.9")
  /\ fails Handle (env_judge 0 quoted_score_judgement) request0 0.
Proof.
  split; [reflexivity|].
  apply (answer_with_a_mistyped_metric_fails_the_attempt Handle stringify
           rubric judger (env_judge 0 quoted_score_judgement) run0 0
           (own_props quoted_score_judgement) "quality" quoted_score_fields);
    [repeat constructor|reflexivity| |reflexivity].
  left. intros q H. discriminate H.
Defined.

Lemma unknown_properties_are_stripped_witness :
  ("id" ∉ metric_names)
  /\ zod_parse judgerSchema
       (JObject (("id", JString "another") :: own_props fair_judgement))
     = Some fair_judgement.
Proof.
  assert (H : "id" ∉ metric_names).
  { unfold metric_names. rewrite !elem_of_cons, elem_of_nil.
    intros [H|[H|[H|[H|[]]]]]; discriminate H. }
  split; [exact H|].
  rewrite (proj1 (unknown_properties_are_stripped JNull JNull "id"
                    (JString "another") (own_props fair_judgement) H)).
  reflexivity.
Defined.

(** [trim] strips a no-break space, a byte order mark and a line separator
    as it strips a blank, and keeps what stands between two words. *)
Example trim_strips_unicode_white_space :
  trim (utf8 [194; 160] +:+ " Bon" +:+ utf8 [194; 160] +:+ "dia"
        +:+ utf8 [226; 128; 168] +:+ utf8 [239; 187; 191])
  = "Bon" +:+ utf8 [194; 160] +:+ "dia".
Proof. reflexivity. Qed.

Lemma dedent_keeps_a_clean_text_witness :
  split_nl clean_text = ["Bon dia"; EmptyString; "Adeu"]
  /\ dedent clean_text = clean_text.
Proof.
  split; [reflexivity|].
  apply dedent_keeps_a_clean_text.
  change (split_nl clean_text) with ["Bon dia"; EmptyString; "Adeu"].
  repeat constructor; intros p Hp; vm_compute in Hp;
    repeat (destruct Hp as [<-|Hp]; [reflexivity|]); destruct Hp.
Defined.

Lemma judged_id_is_the_first_component_witness :
  judged_id "run0.json" = Some "run0"
  /\ exists rest, "run0.json" = "run0" +:+ "." +:+ rest.
Proof.
  split; [reflexivity|].
  apply (judged_id_is_the_first_component "run0.json" "run0"). reflexivity.
Defined.

Lemma entries_with_one_first_component_share_an_id_witness :
  judged_id ("run0" +:+ "." +:+ "old" +:+ ".json") = Some "run0"
  /\ judged_id ("run0" +:+ ".json") = Some "run0".
Proof.
  apply (entries_with_one_first_component_share_an_id "run0" "old");
    [discriminate|reflexivity].
Defined.
